(** * grindery-delight-api: validation gate and order / offer lifecycle

    A shallow embedding of the order validators
    (validators/orders.validator.js, the second file of
    src/src/validators/offers.validator.js), of the orders router
    (routes/orders.js, the first file of src/unnamed/part_002) and of the
    webhook router (routes/webhooks.js, the second file of
    src/src/test/hooks.mjs), with the properties the specification states
    about them.

    Layout:
      - [JS]          JSON values and the few JavaScript coercions used;
      - [EV]          express-validator: chains, their run, the result;
      - [Validators]  the validator declarations of the repository;
      - [Mongo]       the two collections and how the store matches;
      - [Express]     the response object and the handler monad;
      - [Collection]  the driver calls and the coercions of the routes;
      - [Orders], [Webhooks], [App]  the handlers and the routes;
      - [Rules], [Sample]  notions and data the statements use;
      - the theorems. *)

From Stdlib Require Import List String Ascii ZArith Lia Bool Arith.
From Stdlib Require Import DecimalString Sorted Permutation.
Import ListNotations.
Local Open Scope string_scope.
Local Open Scope list_scope.
Set Warnings "-register-all".

(* ===================================================================== *)
(** ** JSON values and JavaScript coercions *)
(* ===================================================================== *)

Module JS.

(** A value as [express.json()] hands it to the routes.  [JUndefined] is what
    reading a missing property gives.  Numbers are integers: nothing in the
    routes computes with them, they are only tested and stringified.  The
    pairs of an object come in [Object.keys] order. *)
Inductive JValue : Type :=
| JUndefined
| JNull
| JBool (b : bool)
| JNum (n : Z)
| JStr (s : string)
| JArr (items : list JValue)
| JObj (props : list (string * JValue)).

Definition JObject := list (string * JValue).

(** [obj[key]] *)
Fixpoint get (key : string) (obj : JObject) : JValue :=
  match obj with
  | [] => JUndefined
  | (k, v) :: rest => if String.eqb k key then v else get key rest
  end.

(** [Object.keys(obj)] *)
Definition keys (obj : JObject) : list string := map fst obj.

(** Strict equality [===] on JSON data, structural on arrays and objects
    (the way the store compares embedded values). *)
Fixpoint jeqb (a b : JValue) : bool :=
  match a, b with
  | JUndefined, JUndefined => true
  | JNull, JNull => true
  | JBool x, JBool y => Bool.eqb x y
  | JNum x, JNum y => Z.eqb x y
  | JStr x, JStr y => String.eqb x y
  | JArr l, JArr m =>
      (fix go (l m : list JValue) : bool :=
         match l, m with
         | [], [] => true
         | x :: l', y :: m' => jeqb x y && go l' m'
         | _, _ => false
         end) l m
  | JObj l, JObj m =>
      (fix go (l m : list (string * JValue)) : bool :=
         match l, m with
         | [], [] => true
         | (k, x) :: l', (k', y) :: m' => String.eqb k k' && jeqb x y && go l' m'
         | _, _ => false
         end) l m
  | _, _ => false
  end.

(** [typeof v === 'string'] *)
Definition is_string (v : JValue) : bool :=
  match v with JStr _ => true | _ => false end.

(** [v == null]: null or undefined. *)
Definition nullish (v : JValue) : bool :=
  match v with JUndefined | JNull => true | _ => false end.

(** [a ?? b] *)
Definition coalesce (a b : JValue) : JValue := if nullish a then b else a.

(** JavaScript truthiness of a JSON value. *)
Definition truthy (v : JValue) : bool :=
  match v with
  | JUndefined | JNull => false
  | JBool b => b
  | JNum n => negb (Z.eqb n 0)
  | JStr s => negb (String.eqb s "")
  | JArr _ | JObj _ => true
  end.

Definition string_of_Z (n : Z) : string := NilZero.string_of_int (Z.to_int n).

(** [String(v)]; an array is its elements joined by commas, null and
    undefined elements giving the empty string. *)
Fixpoint ToString (v : JValue) : string :=
  match v with
  | JUndefined => "undefined"
  | JNull => "null"
  | JBool true => "true"
  | JBool false => "false"
  | JNum n => string_of_Z n
  | JStr s => s
  | JArr l =>
      String.concat ","
        (map (fun x => if nullish x then "" else ToString x) l)
  | JObj _ => "[object Object]"
  end.

Definition dquote : string := String (ascii_of_nat 34) EmptyString.

(** ASCII lower case. *)
Definition lower (c : ascii) : ascii :=
  let n := nat_of_ascii c in
  if (65 <=? n)%nat && (n <=? 90)%nat then ascii_of_nat (n + 32) else c.

Definition ascii_eqb_ci (a b : ascii) : bool := Ascii.eqb (lower a) (lower b).

Fixpoint prefix_ci (p s : string) : bool :=
  match p, s with
  | EmptyString, _ => true
  | String a p', String b s' => ascii_eqb_ci a b && prefix_ci p' s'
  | String _ _, EmptyString => false
  end.

(** [s] has a part equal to [p] up to ASCII case. *)
Fixpoint contains_ci (p s : string) : bool :=
  prefix_ci p s
  || match s with
     | EmptyString => false
     | String _ s' => contains_ci p s'
     end.

(** Equal up to ASCII case. *)
Fixpoint eqb_ci (a b : string) : bool :=
  match a, b with
  | EmptyString, EmptyString => true
  | String x a', String y b' => ascii_eqb_ci x y && eqb_ci a' b'
  | _, _ => false
  end.

(** The characters with a meaning of their own in a regular expression. *)
Definition regex_meta (c : ascii) : bool :=
  existsb (Ascii.eqb c)
    (list_ascii_of_string "\^$.|?*+()[]{}").

(** A pattern every character of which stands for itself. *)
Definition regex_literal (p : string) : bool :=
  forallb (fun c => negb (regex_meta c) && (nat_of_ascii c <? 128)%nat)
    (list_ascii_of_string p).

Definition is_digit (c : ascii) : bool :=
  let n := nat_of_ascii c in (48 <=? n)%nat && (n <=? 57)%nat.

Fixpoint digits_value (acc : nat) (s : string) : option nat :=
  match s with
  | EmptyString => Some acc
  | String c s' =>
      if is_digit c then digits_value (10 * acc + (nat_of_ascii c - 48)) s'
      else None
  end.

(** JSON white space. *)
Definition json_ws (c : ascii) : bool :=
  existsb (Nat.eqb (nat_of_ascii c)) [32; 9; 10; 13]%nat.

Fixpoint skip_ws (s : string) : string :=
  match s with
  | String c s' => if json_ws c then skip_ws s' else s
  | EmptyString => s
  end.

Definition all_ws (s : string) : bool :=
  String.eqb (skip_ws s) "".

End JS.
Export JS.

(* ===================================================================== *)
(** ** express-validator *)
(* ===================================================================== *)

Module EV.

Inductive Location : Type := in_body | in_query | in_params.

Definition location_name (l : Location) : string :=
  match l with
  | in_body => "body"
  | in_query => "query"
  | in_params => "params"
  end.

(** One entry of [validationResult(req).array()]. *)
Record ValidationError : Type := mkError {
  value : JValue;
  msg : string;
  param : string;
  location : Location
}.

(** What a route sees of a request.  [locals_userId] is [res.locals.userId], which
    the [isRequired] middleware (utils/auth-utils.js) sets for an
    authenticated caller; the model starts after it has let the request
    through.  [req_query] is what the query parser makes of the query
    string: a string for a parameter given once, an array for a repeated
    one ([?a=1&a=2]), an object for a bracketed one ([?a[b]=1]).  Path
    parameters are strings.  [contexts] is what the validation chains that
    ran as middleware have left on the request. *)
Record Request : Type := mkRequest {
  req_body : JObject;
  req_query : JObject;
  req_params : list (string * string);
  locals_userId : string;
  contexts : list ValidationError
}.

Definition strings (l : list (string * string)) : JObject :=
  map (fun kv => (fst kv, JStr (snd kv))) l.

(** [req[location]] *)
Definition section (req : Request) (l : Location) : JObject :=
  match l with
  | in_body => req_body req
  | in_query => req_query req
  | in_params => strings (req_params req)
  end.

(** [req.query.k], [req.params.k]: the value, if the parameter is there. *)
Fixpoint lookup {V : Type} (key : string) (l : list (string * V)) : option V :=
  match l with
  | [] => None
  | (k, v) :: rest => if String.eqb k key then Some v else lookup key rest
  end.

(** A validator of a chain.  [isString] is the library's custom check
    [typeof value === 'string']; [notEmpty], [matches] and [isMongoId] are
    standard validators, run on the stringified value; [custom f] runs [f]
    on the request, [Some m] standing for [throw new Error(m)] and [None]
    for a return of [true].  [matches] takes the alternatives [a; b; ...]
    of a pattern [/^(a|b|...)$/]. *)
Inductive Validator : Type :=
| isString
| notEmpty
| matches (alternatives : list string)
| isMongoId
| custom (f : Request -> option string).

Record ValidationChain : Type := mkChain {
  chain_location : Location;
  chain_path : string;
  chain_stack : list (Validator * option string)
}.

Definition withMessage (v : Validator) (m : string) : Validator * option string :=
  (v, Some m).
Definition plain (v : Validator) : Validator * option string := (v, None).

(** [body('f')...], [query('f')...], [param('f')...]; the empty path is the
    whole section, as in [body()]. *)
Module Chain.
Definition body := mkChain in_body.
Definition query := mkChain in_query.
Definition param := mkChain in_params.
End Chain.

(** The library's [toString(value, deep)] (utils): with [deep] an array
    stands for its first element. *)
Definition toString_shallow (v : JValue) : string :=
  match v with
  | JUndefined | JNull => ""
  | _ => ToString v
  end.

Definition toString (v : JValue) : string :=
  match v with
  | JArr (x :: _) => toString_shallow x
  | _ => toString_shallow v
  end.

Definition is_hex_digit (c : ascii) : bool :=
  let n := nat_of_ascii (lower c) in
  is_digit c || ((97 <=? n)%nat && (n <=? 102)%nat).

Definition all_hex (s : string) : bool :=
  negb (String.eqb s "") && forallb is_hex_digit (list_ascii_of_string s).

(** validator.js [isHexadecimal]: [/^(0x|0h)?[0-9A-F]+$/i]. *)
Definition isHexadecimal (s : string) : bool :=
  all_hex s
  || match s with
     | String z (String x rest) =>
         Ascii.eqb z "0"
         && (Ascii.eqb (lower x) "x" || Ascii.eqb (lower x) "h")
         && all_hex rest
     | _ => false
     end.

(** What a standard validator answers on a string. *)
Definition standard (v : Validator) (s : string) : bool :=
  match v with
  | notEmpty => negb (String.eqb s "")
  | matches alternatives => existsb (String.eqb s) alternatives
  | isMongoId => isHexadecimal s && (String.length s =? 24)%nat
  | _ => true
  end.

(** The value a chain is about. *)
Definition select (req : Request) (l : Location) (path : string) : JValue :=
  if String.eqb path "" then JObj (section req l) else get path (section req l).

Definition message_or (m : option string) (default : string) : string :=
  match m with Some s => s | None => default end.

(** The errors one validator adds for the value [val].  A standard
    validator is run once, on the stringified value
    ([StandardValidation.run]: [this.validator(toString(value))]), so that
    of an array only the first element is looked at and the empty array is
    the empty string; the custom ones see the value whole.  The entry
    carries the value whole either way. *)
Definition run_validator (req : Request) (l : Location) (path : string)
    (val : JValue) (item : Validator * option string) : list ValidationError :=
  let (v, m) := item in
  match v with
  | isString =>
      if is_string val then []
      else [mkError val (message_or m "Invalid value") path l]
  | custom f =>
      match f req with
      | None => []
      | Some thrown => [mkError val (message_or m thrown) path l]
      end
  | _ =>
      if standard v (toString val) then []
      else [mkError val (message_or m "Invalid value") path l]
  end.

(** A chain runs all its validators, none stops the next; every failure is
    pushed on the context. *)
Definition run_chain (req : Request) (c : ValidationChain) : list ValidationError :=
  fold_left
    (fun errors item =>
       errors ++ run_validator req (chain_location c) (chain_path c)
                   (select req (chain_location c) (chain_path c)) item)
    (chain_stack c) [].

(** The chains of a route run as middleware, in the order they are listed. *)
Definition run (chains : list ValidationChain) (req : Request) : Request :=
  fold_left
    (fun r c =>
       mkRequest (req_body r) (req_query r) (req_params r) (locals_userId r)
         (contexts r ++ run_chain r c))
    chains req.

(** [validationResult(req)] *)
Definition validationResult (req : Request) : list ValidationError := contexts req.

(** utils/validators-utils.js [validateResult]. *)
Definition validateResult (req : Request) : list ValidationError :=
  let errors := validationResult req in
  if negb (Nat.eqb (List.length errors) 0) then errors else [].

(** Modelled from the spec: [validateFields] of utils/validators-utils.js,
    which the validators call and which is not among the sources.  The
    specification (4.2) has it report the keys of a section that are not on
    the allow-list in one message, the keys joined by commas; the tests of
    the orders route give the wording.  [Some m] is [throw new Error(m)]. *)
Definition validateFields (fields : JObject) (allowed : list string)
    (loc : string) : option string :=
  match filter (fun k => negb (existsb (String.eqb k) allowed)) (keys fields) with
  | [] => None
  | extra =>
      Some ("The following fields are not allowed in " ++ loc ++ ": "
            ++ String.concat ", " extra)%string
  end.

End EV.
Export EV.

(* ===================================================================== *)
(** ** validators/orders.validator.js (src/src/validators/offers.validator.js) *)
(* ===================================================================== *)

Module Validators.

Definition must_be_string := "must be string value".
Definition must_not_be_empty := "must not be empty".

(** [body(f).isString().withMessage(..).notEmpty().withMessage(..)] *)
Definition string_notEmpty : list (Validator * option string) :=
  [ withMessage isString must_be_string;
    withMessage notEmpty must_not_be_empty ].

Definition createOrder_allowed : list string :=
  [ "status"; "orderId"; "amountTokenDeposit"; "addressTokenDeposit";
    "chainIdTokenDeposit"; "destAddr"; "amountTokenOffer"; "offerId"; "hash" ].

Definition createOrder_status_message : string :=
  Eval cbv in
    ("must be one of " ++ dquote ++ "pending" ++ dquote ++ ", "
       ++ dquote ++ "success" ++ dquote ++ " or "
       ++ dquote ++ "failure" ++ dquote)%string.

(** The three allow-list checks every order validator ends with. *)
Definition only_fields (allowed : list string) : list ValidationChain :=
  [ Chain.body ""
      [ plain (custom (fun req => validateFields (req_body req) allowed "body")) ];
    Chain.query ""
      [ plain (custom (fun req =>
                 validateFields (section req in_query) [] "query")) ];
    Chain.param ""
      [ plain (custom (fun req =>
                 validateFields (section req in_params) [] "params")) ] ].

(** The chains of [createOrderValidator] on the fields of the body. *)
Definition createOrder_fields : list ValidationChain :=
  [ Chain.body "status"
      [ withMessage (matches ["pending"; "success"; "failure"])
          createOrder_status_message ];
    Chain.body "orderId" [ withMessage isString must_be_string ];
    Chain.body "amountTokenDeposit" string_notEmpty;
    Chain.body "addressTokenDeposit" string_notEmpty;
    Chain.body "chainIdTokenDeposit" string_notEmpty;
    Chain.body "destAddr" string_notEmpty;
    Chain.body "amountTokenOffer" string_notEmpty;
    Chain.body "offerId" string_notEmpty;
    Chain.body "hash" string_notEmpty ].

Definition createOrderValidator : list ValidationChain :=
  createOrder_fields ++ only_fields createOrder_allowed.

Definition getOrderByOrderIdValidator : list ValidationChain :=
  [ Chain.query "orderId" string_notEmpty ].

Definition getOrderByIdValidator : list ValidationChain :=
  [ Chain.query "id"
      [ withMessage isMongoId "must be mongodb id";
        withMessage notEmpty must_not_be_empty ] ].

Definition setOrderCompleteValidator : list ValidationChain :=
  [ Chain.body "orderId" string_notEmpty ] ++ only_fields ["orderId"].

Definition deleteOrderValidator : list ValidationChain :=
  [ Chain.param "orderId" string_notEmpty ].

End Validators.
Export Validators.

(* ===================================================================== *)
(** ** The document store *)
(* ===================================================================== *)

Module Mongo.

(** Modelled from the spec: the [ORDER_STATUS] table of
    utils/orders-utils.js, which is not among the sources.  The
    specification (4.4) names the statuses; their strings are the ones the
    order validators and the webhook of the repository use. *)
Module ORDER_STATUS.
Definition PENDING := "pending".
Definition SUCCESS := "success".
Definition FAILURE := "failure".
Definition COMPLETION := "completion".
Definition COMPLETION_FAILURE := "completionFailure".
End ORDER_STATUS.

(** A document of the [orders] collection.  The fields a request supplies
    keep the JSON value they came with; [JUndefined] is a field the
    document does not have. *)
Module Order.
Record t : Type := mk {
  _id : nat;
  orderId : JValue;
  amountTokenDeposit : JValue;
  addressTokenDeposit : JValue;
  chainIdTokenDeposit : JValue;
  destAddr : JValue;
  amountTokenOffer : JValue;
  offerId : JValue;
  hash : JValue;
  status : string;
  date : Z;
  userId : string;
  isComplete : bool;
  completionHash : JValue
}.
End Order.

(** A document of the [offers] collection, with the fields the routes
    under study read or write. *)
Module Offer.
Record t : Type := mk {
  _id : nat;
  offerId : JValue;
  userId : string;
  hash : JValue;
  isActive : JValue;
  min : JValue;
  max : JValue;
  tokenAddress : JValue;
  chainId : JValue;
  status : JValue
}.
End Offer.

Record Db : Type := mkDb {
  orders : list Order.t;
  offers : list Offer.t;
  next_id : nat
}.

(** The driver writes [undefined] as [null]. *)
Definition bson (v : JValue) : JValue :=
  match v with JUndefined => JNull | _ => v end.

(** [{ field: q }]: the field equals [q], or is an array with an element
    equal to [q]; [null] also matches a field that is not there. *)
Definition mongo_eq (field q : JValue) : bool :=
  let q := bson q in
  jeqb (bson field) q
  || match field with
     | JArr items => existsb (fun x => jeqb x q) items
     | _ => false
     end.

(** A field of a document used as a filter: a field the document does not
    have puts no condition. *)
Definition same_field (field q : JValue) : bool :=
  match q with JUndefined => true | _ => mongo_eq field q end.

(** [{ field: { $regex: pattern, $options: 'i' } }] for a pattern without
    special characters: the field has a part equal to the pattern up to
    case.  The pattern is not anchored. *)
Definition regex_i (pattern field : string) : bool := contains_ci pattern field.

(** [{ field: { $in: values } }] *)
Definition mongo_in (field : JValue) (values : list JValue) : bool :=
  existsb (mongo_eq field) values.

(** A whole order used as the filter of [updateOne] or [deleteOne]. *)
Definition order_filter (q d : Order.t) : bool :=
  (Order._id d =? Order._id q)%nat
  && same_field (Order.orderId d) (Order.orderId q)
  && same_field (Order.amountTokenDeposit d) (Order.amountTokenDeposit q)
  && same_field (Order.addressTokenDeposit d) (Order.addressTokenDeposit q)
  && same_field (Order.chainIdTokenDeposit d) (Order.chainIdTokenDeposit q)
  && same_field (Order.destAddr d) (Order.destAddr q)
  && same_field (Order.amountTokenOffer d) (Order.amountTokenOffer q)
  && same_field (Order.offerId d) (Order.offerId q)
  && same_field (Order.hash d) (Order.hash q)
  && String.eqb (Order.status d) (Order.status q)
  && Z.eqb (Order.date d) (Order.date q)
  && String.eqb (Order.userId d) (Order.userId q)
  && Bool.eqb (Order.isComplete d) (Order.isComplete q)
  && same_field (Order.completionHash d) (Order.completionHash q).

Definition offer_filter (q d : Offer.t) : bool :=
  (Offer._id d =? Offer._id q)%nat
  && same_field (Offer.offerId d) (Offer.offerId q)
  && String.eqb (Offer.userId d) (Offer.userId q)
  && same_field (Offer.hash d) (Offer.hash q)
  && same_field (Offer.isActive d) (Offer.isActive q)
  && same_field (Offer.min d) (Offer.min q)
  && same_field (Offer.max d) (Offer.max q)
  && same_field (Offer.tokenAddress d) (Offer.tokenAddress q)
  && same_field (Offer.chainId d) (Offer.chainId q)
  && same_field (Offer.status d) (Offer.status q).

(** Whether [$set] changed the document. *)
Definition order_eqb (a b : Order.t) : bool :=
  (Order._id a =? Order._id b)%nat
  && jeqb (Order.orderId a) (Order.orderId b)
  && jeqb (Order.amountTokenDeposit a) (Order.amountTokenDeposit b)
  && jeqb (Order.addressTokenDeposit a) (Order.addressTokenDeposit b)
  && jeqb (Order.chainIdTokenDeposit a) (Order.chainIdTokenDeposit b)
  && jeqb (Order.destAddr a) (Order.destAddr b)
  && jeqb (Order.amountTokenOffer a) (Order.amountTokenOffer b)
  && jeqb (Order.offerId a) (Order.offerId b)
  && jeqb (Order.hash a) (Order.hash b)
  && String.eqb (Order.status a) (Order.status b)
  && Z.eqb (Order.date a) (Order.date b)
  && String.eqb (Order.userId a) (Order.userId b)
  && Bool.eqb (Order.isComplete a) (Order.isComplete b)
  && jeqb (Order.completionHash a) (Order.completionHash b).

Definition offer_eqb (a b : Offer.t) : bool :=
  (Offer._id a =? Offer._id b)%nat
  && jeqb (Offer.offerId a) (Offer.offerId b)
  && String.eqb (Offer.userId a) (Offer.userId b)
  && jeqb (Offer.hash a) (Offer.hash b)
  && jeqb (Offer.isActive a) (Offer.isActive b)
  && jeqb (Offer.min a) (Offer.min b)
  && jeqb (Offer.max a) (Offer.max b)
  && jeqb (Offer.tokenAddress a) (Offer.tokenAddress b)
  && jeqb (Offer.chainId a) (Offer.chainId b)
  && jeqb (Offer.status a) (Offer.status b).

Record InsertOneResult : Type := mkInsert {
  acknowledged : bool;
  insertedId : nat
}.

Record UpdateResult : Type := mkUpdate {
  matchedCount : nat;
  modifiedCount : nat
}.

Record DeleteResult : Type := mkDelete {
  deletedCount : nat
}.

(** [updateOne]: the first document the filter matches gets the change. *)
Fixpoint update_first {A : Type} (eqb : A -> A -> bool) (p : A -> bool)
    (set : A -> A) (l : list A) : list A * UpdateResult :=
  match l with
  | [] => ([], mkUpdate 0 0)
  | d :: rest =>
      if p d then
        (set d :: rest, mkUpdate 1 (if eqb (set d) d then 0 else 1))
      else
        let (rest', r) := update_first eqb p set rest in (d :: rest', r)
  end.

(** [deleteOne]: the first document the filter matches goes. *)
Fixpoint delete_first {A : Type} (p : A -> bool) (l : list A)
    : list A * DeleteResult :=
  match l with
  | [] => ([], mkDelete 0)
  | d :: rest =>
      if p d then (rest, mkDelete 1)
      else let (rest', r) := delete_first p rest in (d :: rest', r)
  end.

(** [.sort({ date: -1 })], by insertion; documents of one date keep their
    order. *)
Fixpoint insert_by_date (o : Order.t) (l : list Order.t) : list Order.t :=
  match l with
  | [] => [o]
  | x :: rest =>
      if (Order.date x <=? Order.date o)%Z then o :: l
      else x :: insert_by_date o rest
  end.

Definition sort_date_desc (l : list Order.t) : list Order.t :=
  fold_right insert_by_date [] l.

(** [.skip(n).limit(m)]; a limit of 0 is no limit. *)
Definition page (skip limit : nat) (l : list Order.t) : list Order.t :=
  let l := skipn skip l in
  if (limit =? 0)%nat then l else firstn limit l.

End Mongo.
Export Mongo.

(* ===================================================================== *)
(** ** The response object and the handler monad *)
(* ===================================================================== *)

Module Express.

(** What a handler can throw.  [MongoServerError] is the store refusing a
    query (a [$regex] that is no regular expression).  [Unmodelled] marks
    an input on which this development does not say what JavaScript does
    (a number syntax or a JSON text outside the part modelled below); the
    theorems that say what a route answers are about the inputs on which
    it does not arise. *)
Inductive Exn : Type :=
| TypeError
| SyntaxError
| BSONError
| MongoInvalidArgumentError
| MongoServerError
| ERR_HTTP_HEADERS_SENT
| Unmodelled.

Inductive Outcome (A : Type) : Type :=
| Return (a : A)
| Throw (e : Exn).
Arguments Return {A} a.
Arguments Throw {A} e.

(** The body given to [res.send]. *)
Inductive Payload : Type :=
| errors (l : list ValidationError)
| message (m : string)
| inserted (r : InsertOneResult)
| updated (r : UpdateResult)
| deleted (r : DeleteResult)
| order_page (orders : JValue) (totalCount : nat)
| document (d : JValue).

(** [res]: the status code set so far and what went out.  Only the first
    [send] goes out; a later one finds the headers sent and throws. *)
Record Res : Type := mkRes {
  statusCode : nat;
  sent : option (nat * Payload)
}.

(** The write a handler asked of a collection; [None] is a [null] filter. *)
Inductive Write : Type :=
| insertOne (collection : string) (id : nat)
| updateOne (collection : string) (filter : option nat)
| deleteOne (collection : string) (filter : nat).

(** [dispatch({ method, params: { type, id } })] *)
Record Event : Type := mkEvent {
  method : string;
  params_type : string;
  params_id : JValue
}.

Record World : Type := mkWorld {
  db : Db;
  res : Res;
  writes : list Write;
  dispatched : list Event
}.

(** A world in which a request arrives. *)
Definition incoming (d : Db) : World := mkWorld d (mkRes 200 None) [] [].

Definition Handler (A : Type) : Type := World -> Outcome A * World.

Definition ret {A : Type} (a : A) : Handler A := fun w => (Return a, w).

Definition throw {A : Type} (e : Exn) : Handler A := fun w => (Throw e, w).

Definition bind {A B : Type} (m : Handler A) (k : A -> Handler B) : Handler B :=
  fun w =>
    match m w with
    | (Return a, w') => k a w'
    | (Throw e, w') => (Throw e, w')
    end.

Declare Scope handler_scope.
Delimit Scope handler_scope with handler.
Notation "x <- m ;; k" := (bind m (fun x => k))
  (at level 61, m at next level, right associativity) : handler_scope.
Notation "m ;; k" := (bind m (fun _ => k))
  (at level 61, right associativity) : handler_scope.

Definition with_db (f : Db -> Db) : Handler unit :=
  fun w => (Return tt, mkWorld (f (db w)) (res w) (writes w) (dispatched w)).

Definition read_db : Handler Db := fun w => (Return (db w), w).

Definition log (c : Write) : Handler unit :=
  fun w => (Return tt, mkWorld (db w) (res w) (writes w ++ [c]) (dispatched w)).

(** [res.status(code)] *)
Definition status (code : nat) : Handler unit :=
  fun w =>
    (Return tt,
     mkWorld (db w) (mkRes code (sent (res w))) (writes w) (dispatched w)).

(** [res.send(body)] *)
Definition send (b : Payload) : Handler unit :=
  fun w =>
    match sent (res w) with
    | Some _ => (Throw ERR_HTTP_HEADERS_SENT, w)
    | None =>
        (Return tt,
         mkWorld (db w)
           (mkRes (statusCode (res w)) (Some (statusCode (res w), b)))
           (writes w) (dispatched w))
    end.

(** utils/websocket-utils.js [dispatch]: fire and forget. *)
Definition dispatch (e : Event) : Handler unit :=
  fun w => (Return tt, mkWorld (db w) (res w) (writes w) (dispatched w ++ [e])).

(** What the client got. *)
Definition response (r : Outcome unit * World) : option (nat * Payload) :=
  sent (res (snd r)).

Definition store (r : Outcome unit * World) : Db := db (snd r).

End Express.
Export Express.
Local Open Scope handler_scope.

(* ===================================================================== *)
(** ** The driver calls and the coercions of the routes *)
(* ===================================================================== *)

Module Collection.

Definition orders_findOne (p : Order.t -> bool) : Handler (option Order.t) :=
  d <- read_db ;; ret (find p (orders d)).

Definition offers_findOne (p : Offer.t -> bool) : Handler (option Offer.t) :=
  d <- read_db ;; ret (find p (offers d)).

(** [insertOne]: the store gives the document its [_id]. *)
Definition orders_insertOne (doc : nat -> Order.t) : Handler InsertOneResult :=
  d <- read_db ;;
  with_db (fun d => mkDb (orders d ++ [doc (next_id d)]) (offers d) (S (next_id d))) ;;
  log (insertOne "orders" (next_id d)) ;;
  ret (mkInsert true (next_id d)).

(** [updateOne(filter, { $set })] with a document, or [null], as the
    filter.  The call is made either way; the driver refuses a [null]
    filter ("Selector must be a valid JavaScript object") and nothing is
    changed. *)
Definition orders_updateOne (filter : option Order.t) (set : Order.t -> Order.t)
    : Handler UpdateResult :=
  log (updateOne "orders" (option_map Order._id filter)) ;;
  match filter with
  | None => throw MongoInvalidArgumentError
  | Some q =>
      d <- read_db ;;
      let (l, r) := update_first order_eqb (order_filter q) set (orders d) in
      with_db (fun d => mkDb l (offers d) (next_id d)) ;;
      ret r
  end.

Definition offers_updateOne (filter : option Offer.t) (set : Offer.t -> Offer.t)
    : Handler UpdateResult :=
  log (updateOne "offers" (option_map Offer._id filter)) ;;
  match filter with
  | None => throw MongoInvalidArgumentError
  | Some q =>
      d <- read_db ;;
      let (l, r) := update_first offer_eqb (offer_filter q) set (offers d) in
      with_db (fun d => mkDb (orders d) l (next_id d)) ;;
      ret r
  end.

Definition orders_deleteOne (filter : Order.t) : Handler DeleteResult :=
  log (deleteOne "orders" (Order._id filter)) ;;
  d <- read_db ;;
  let (l, r) := delete_first (order_filter filter) (orders d) in
  with_db (fun d => mkDb l (offers d) (next_id d)) ;;
  ret r.

(** [{ $regex: res.locals.userId, $options: 'i' }] on a [userId] field:
    the caller id is run as a regular expression, whatever it is.  A
    pattern without special characters is looked for in the field, up to
    case.  What another pattern matches, and whether the store takes it at
    all, is the business of the regular expression engine of the store,
    [RegExp]: it gives the test a pattern stands for, or [None] for a text
    that is no regular expression, which the store answers with an
    error. *)
Definition user_regex (RegExp : string -> option (string -> bool))
    (req : Request) : Handler (string -> bool) :=
  if regex_literal (locals_userId req) then ret (regex_i (locals_userId req))
  else
    match RegExp (locals_userId req) with
    | Some test => ret test
    | None => throw MongoServerError
    end.

(** [req.query.k] as a value. *)
Definition query_value (req : Request) (k : string) : JValue :=
  match lookup k (req_query req) with Some v => v | None => JUndefined end.

Definition param_value (req : Request) (k : string) : JValue :=
  match lookup k (req_params req) with Some s => JStr s | None => JUndefined end.

Definition is_letter_not_I (c : ascii) : bool :=
  let n := nat_of_ascii (lower c) in
  (97 <=? n)%nat && (n <=? 122)%nat && negb (Ascii.eqb c "I").

(** [+q || 0] for a query parameter: 0 when the parameter is missing or
    empty, the number when it is written in at most nine decimal digits, 0
    again (from [NaN]) when it starts with a letter no number starts with;
    [None] for the other texts, and for a parameter that is an array or an
    object, which are left out. *)
Definition to_number_or_0 (q : option JValue) : option nat :=
  match q with
  | None => Some 0%nat
  | Some (JStr s) =>
      match digits_value 0 s with
      | Some n => if (String.length s <=? 9)%nat then Some n else None
      | None =>
          match s with
          | String c _ => if is_letter_not_I c then Some 0%nat else None
          | EmptyString => Some 0%nat
          end
      end
  | Some _ => None
  end.

Definition number_or_0 (q : option JValue) : Handler nat :=
  match to_number_or_0 q with
  | Some n => ret n
  | None => throw Unmodelled
  end.

Definition drop (n : nat) (s : string) : string :=
  String.substring n (String.length s - n) s.

Definition is_literal (lit s : string) : bool :=
  String.prefix lit s && all_ws (drop (String.length lit) s).

(** What [JSON.parse(text)] does, as far as the routes need it: the
    truthiness of the value for the texts [true], [false] and [null]; a
    [SyntaxError] for a text no JSON value starts like; the other texts
    (numbers, strings, arrays, objects) are left out. *)
Inductive Parse : Type :=
| parsed (is_truthy : bool)
| syntax_error
| not_modelled.

Definition JSON_parse (text : string) : Parse :=
  let s := skip_ws text in
  if is_literal "true" s then parsed true
  else if is_literal "false" s then parsed false
  else if is_literal "null" s then parsed false
  else
    match s with
    | String c _ =>
        if is_digit c
           || existsb (Ascii.eqb c) (list_ascii_of_string ("{[-" ++ dquote))
        then not_modelled
        else syntax_error
    | EmptyString => syntax_error
    end.

Definition JSON_parse_truthy (text : string) : Handler bool :=
  match JSON_parse text with
  | parsed b => ret b
  | syntax_error => throw SyntaxError
  | not_modelled => throw Unmodelled
  end.

End Collection.
Export Collection.

(* ===================================================================== *)
(** ** routes/orders.js (src/unnamed/part_002) *)
(* ===================================================================== *)

Module Orders.

Definition nonempty {A : Type} (l : list A) : bool :=
  negb (Nat.eqb (List.length l) 0).

Definition is_found {A : Type} (o : option A) : bool :=
  match o with Some _ => true | None => false end.

Definition already_exists := "This order already exists.".
Definition no_order_found := "No order found".

(** [newDocument]: the body of the request with [date], [userId],
    [isComplete] and [status] set by the route. *)
Definition newDocument (now : Z) (req : Request) (id : nat) : Order.t :=
  let b := req_body req in
  Order.mk id
    (get "orderId" b)
    (get "amountTokenDeposit" b)
    (get "addressTokenDeposit" b)
    (get "chainIdTokenDeposit" b)
    (get "destAddr" b)
    (get "amountTokenOffer" b)
    (get "offerId" b)
    (get "hash" b)
    ORDER_STATUS.PENDING
    now
    (locals_userId req)
    false
    (get "completionHash" b).

(** [$set: { status, completionHash }] *)
Definition set_completion (st : string) (h : JValue) (o : Order.t) : Order.t :=
  Order.mk (Order._id o) (Order.orderId o) (Order.amountTokenDeposit o)
    (Order.addressTokenDeposit o) (Order.chainIdTokenDeposit o)
    (Order.destAddr o) (Order.amountTokenOffer o) (Order.offerId o)
    (Order.hash o) st (Order.date o) (Order.userId o) (Order.isComplete o)
    (bson h).

Section Router.

(** utils/orders-utils.js, not among the sources: what the two helpers make
    of the orders they are given is left open. *)
Variable getOrdersWithOffers : Db -> list Order.t -> JValue.
Variable getOneOrderWithOffer : list Offer.t -> option Order.t -> JValue.
(** [new ObjectId(req.query.id)]; [None] when the driver refuses the value. *)
Variable ObjectId : option JValue -> option nat.
(** The regular expression engine of the store, see [user_regex]. *)
Variable RegExp : string -> option (string -> bool).
(** [router.post('/')]; [now] is what [new Date()] gives. *)
Definition post (now : Z) (req : Request) : Handler unit :=
  let validator := validateResult req in
  if nonempty validator then
    status 400 ;; send (errors validator)
  else
    found <- orders_findOne
               (fun o => mongo_eq (Order.orderId o) (get "orderId" (req_body req))) ;;
    (if is_found found && negb (jeqb (get "orderId" (req_body req)) (JStr ""))
     then status 404 ;; send (message already_exists)
     else ret tt) ;;
    r <- orders_insertOne (newDocument now req) ;;
    send (inserted r) ;;
    status 201.

(** [router.get('/user')] *)
Definition get_user (req : Request) : Handler unit :=
  d <- read_db ;;
  by_user <- user_regex RegExp req ;;
  let query := fun o => by_user (Order.userId o) in
  offset <- number_or_0 (lookup "offset" (req_query req)) ;;
  limit <- number_or_0 (lookup "limit" (req_query req)) ;;
  send (order_page
          (getOrdersWithOffers d
             (page offset limit (sort_date_desc (filter query (orders d)))))
          (List.length (filter query (orders d)))) ;;
  status 200.

(** [router.get('/orderId')] *)
Definition get_orderId (req : Request) : Handler unit :=
  let validator := validateResult req in
  if nonempty validator then
    status 400 ;; send (errors validator)
  else
    d <- read_db ;;
    by_user <- user_regex RegExp req ;;
    o <- orders_findOne
           (fun o => by_user (Order.userId o)
                     && mongo_eq (Order.orderId o) (query_value req "orderId")) ;;
    send (document (getOneOrderWithOffer (offers d) o)) ;;
    status 200.

(** [router.get('/id')] *)
Definition get_id (req : Request) : Handler unit :=
  let validator := validateResult req in
  if nonempty validator then
    status 400 ;; send (errors validator)
  else
    d <- read_db ;;
    by_user <- user_regex RegExp req ;;
    match ObjectId (lookup "id" (req_query req)) with
    | None => throw BSONError
    | Some i =>
        o <- orders_findOne
               (fun o => by_user (Order.userId o) && (Order._id o =? i)%nat) ;;
        send (document (getOneOrderWithOffer (offers d) o)) ;;
        status 200
    end.

(** The [isActive] part of the offers filter of [/liquidity-provider]:
    [req.query.isActiveOffers ? JSON.parse(..) ? { isActive: true } :
    { isActive: false } : {}].  A parameter that is an array or an object
    is left out. *)
Definition isActiveOffers_filter (req : Request) : Handler (Offer.t -> bool) :=
  match lookup "isActiveOffers" (req_query req) with
  | None => ret (fun _ => true)
  | Some (JStr text) =>
      if String.eqb text "" then ret (fun _ => true)
      else
        b <- JSON_parse_truthy text ;;
        ret (fun f => mongo_eq (Offer.isActive f) (JBool b))
  | Some _ => throw Unmodelled
  end.

(** [router.get('/liquidity-provider')]; the filter object, and with it
    [JSON.parse], is evaluated before the store sees the query. *)
Definition get_liquidity_provider (req : Request) : Handler unit :=
  d <- read_db ;;
  active <- isActiveOffers_filter req ;;
  by_user <- user_regex RegExp req ;;
  let activeOffersForUser :=
    filter (fun f => by_user (Offer.userId f) && active f) (offers d) in
  let query := fun o =>
    mongo_in (Order.offerId o) (map Offer.offerId activeOffersForUser) in
  status 200 ;;
  offset <- number_or_0 (lookup "offset" (req_query req)) ;;
  limit <- number_or_0 (lookup "limit" (req_query req)) ;;
  send (order_page
          (getOrdersWithOffers d
             (page offset limit (sort_date_desc (filter query (orders d)))))
          (List.length (filter query (orders d)))).

(** [router.put('/complete')] *)
Definition put_complete (req : Request) : Handler unit :=
  let validator := validateResult req in
  if nonempty validator then
    status 400 ;; send (errors validator)
  else
    by_user <- user_regex RegExp req ;;
    order <- orders_findOne
               (fun o => mongo_eq (Order.orderId o) (get "orderId" (req_body req))
                         && by_user (Order.userId o)
                         && String.eqb (Order.status o) ORDER_STATUS.SUCCESS) ;;
    match order with
    | None => status 404 ;; send (message no_order_found)
    | Some _ =>
        status 200 ;;
        r <- orders_updateOne order
               (set_completion ORDER_STATUS.COMPLETION
                  (get "completionHash" (req_body req))) ;;
        send (updated r)
    end.

(** [router.delete('/:orderId')] *)
Definition delete (req : Request) : Handler unit :=
  let validator := validateResult req in
  if nonempty validator then
    status 400 ;; send (errors validator)
  else
    by_user <- user_regex RegExp req ;;
    order <- orders_findOne
               (fun o => mongo_eq (Order.orderId o) (param_value req "orderId")
                         && by_user (Order.userId o)) ;;
    match order with
    | Some o =>
        status 200 ;;
        r <- orders_deleteOne o ;;
        send (deleted r)
    | None => status 404 ;; send (message no_order_found)
    end.

End Router.

End Orders.

(* ===================================================================== *)
(** ** routes/webhooks.js (src/src/test/hooks.mjs) *)
(* ===================================================================== *)

Module Webhooks.

Import Orders.

Definition no_offer_found := "No offer found".
Definition not_found := "Not found.".

Definition set_max (v : JValue) (f : Offer.t) : Offer.t :=
  Offer.mk (Offer._id f) (Offer.offerId f) (Offer.userId f) (Offer.hash f)
    (Offer.isActive f) (Offer.min f) (bson v) (Offer.tokenAddress f)
    (Offer.chainId f) (Offer.status f).

Definition set_min (v : JValue) (f : Offer.t) : Offer.t :=
  Offer.mk (Offer._id f) (Offer.offerId f) (Offer.userId f) (Offer.hash f)
    (Offer.isActive f) (bson v) (Offer.max f) (Offer.tokenAddress f)
    (Offer.chainId f) (Offer.status f).

Definition set_tokenAddress (v : JValue) (f : Offer.t) : Offer.t :=
  Offer.mk (Offer._id f) (Offer.offerId f) (Offer.userId f) (Offer.hash f)
    (Offer.isActive f) (Offer.min f) (Offer.max f) (bson v)
    (Offer.chainId f) (Offer.status f).

Definition set_chainId (v : JValue) (f : Offer.t) : Offer.t :=
  Offer.mk (Offer._id f) (Offer.offerId f) (Offer.userId f) (Offer.hash f)
    (Offer.isActive f) (Offer.min f) (Offer.max f) (Offer.tokenAddress f)
    (bson v) (Offer.status f).

Definition set_isActive (v : JValue) (f : Offer.t) : Offer.t :=
  Offer.mk (Offer._id f) (Offer.offerId f) (Offer.userId f) (Offer.hash f)
    (bson v) (Offer.min f) (Offer.max f) (Offer.tokenAddress f)
    (Offer.chainId f) (Offer.status f).

(** [$set: { offerId, status: 'success' }] *)
Definition set_offer_success (v : JValue) (f : Offer.t) : Offer.t :=
  Offer.mk (Offer._id f) (bson v) (Offer.userId f) (Offer.hash f)
    (Offer.isActive f) (Offer.min f) (Offer.max f) (Offer.tokenAddress f)
    (Offer.chainId f) (JStr "success").

(** [$set: { orderId, status: 'success' }] *)
Definition set_order_success (v : JValue) (o : Order.t) : Order.t :=
  Order.mk (Order._id o) (bson v) (Order.amountTokenDeposit o)
    (Order.addressTokenDeposit o) (Order.chainIdTokenDeposit o)
    (Order.destAddr o) (Order.amountTokenOffer o) (Order.offerId o)
    (Order.hash o) "success" (Order.date o) (Order.userId o)
    (Order.isComplete o) (Order.completionHash o).

(** [req.body.k ?? offer.field], with [offer] possibly [null]: reading a
    field of [null] is a [TypeError]. *)
Definition or_field (v : JValue) (offer : option Offer.t)
    (field : Offer.t -> JValue) : Handler JValue :=
  if nullish v then
    match offer with
    | Some f => ret (field f)
    | None => throw TypeError
    end
  else ret v.

(** [if (response.modifiedCount > 0) dispatch({ method, params: { type, id } })] *)
Definition notify (r : UpdateResult) (m t : string) (i : JValue) : Handler unit :=
  if (0 <? modifiedCount r)%nat then dispatch (mkEvent m t i) else ret tt.

Definition by_offerId (req : Request) (f : Offer.t) : bool :=
  mongo_eq (Offer.offerId f) (get "_idOffer" (req_body req)).

(** [router.put('/offer/max-price')] *)
Definition put_offer_max_price (req : Request) : Handler unit :=
  let validator := validateResult req in
  if nonempty validator then
    status 400 ;; send (errors validator)
  else
    offer <- offers_findOne (by_offerId req) ;;
    if negb (is_found offer) then
      status 400 ;; send (message no_offer_found)
    else
      v <- or_field (get "_upperMaxFn" (req_body req)) offer Offer.max ;;
      response <- offers_updateOne offer (set_max v) ;;
      notify response "maxPrice" "offer" (get "_idOffer" (req_body req)) ;;
      status 200 ;; send (updated response).

(** [router.put('/offer/min-price')] *)
Definition put_offer_min_price (req : Request) : Handler unit :=
  let validator := validateResult req in
  if nonempty validator then
    status 400 ;; send (errors validator)
  else
    offer <- offers_findOne (by_offerId req) ;;
    (if negb (is_found offer) then
       status 400 ;; send (message no_offer_found)
     else ret tt) ;;
    v <- or_field (get "_lowerLimitFn" (req_body req)) offer Offer.min ;;
    response <- offers_updateOne offer (set_min v) ;;
    notify response "minPrice" "offer" (get "_idOffer" (req_body req)) ;;
    status 200 ;; send (updated response).

(** [router.put('/offer/token')] *)
Definition put_offer_token (req : Request) : Handler unit :=
  let validator := validateResult req in
  if nonempty validator then
    status 400 ;; send (errors validator)
  else
    offer <- offers_findOne (by_offerId req) ;;
    (if negb (is_found offer) then
       status 400 ;; send (message no_offer_found)
     else ret tt) ;;
    v <- or_field (get "_token" (req_body req)) offer Offer.tokenAddress ;;
    response <- offers_updateOne offer (set_tokenAddress v) ;;
    notify response "token" "offer" (get "_idOffer" (req_body req)) ;;
    status 200 ;; send (updated response).

(** [router.put('/offer/chain')] *)
Definition put_offer_chain (req : Request) : Handler unit :=
  let validator := validateResult req in
  if nonempty validator then
    status 400 ;; send (errors validator)
  else
    offer <- offers_findOne (by_offerId req) ;;
    (if negb (is_found offer) then
       status 400 ;; send (message no_offer_found)
     else ret tt) ;;
    v <- or_field (get "_chainId" (req_body req)) offer Offer.chainId ;;
    response <- offers_updateOne offer (set_chainId v) ;;
    notify response "chain" "offer" (get "_idOffer" (req_body req)) ;;
    status 200 ;; send (updated response).

(** [router.put('/offer/activation-deactivation')] *)
Definition put_offer_activation_deactivation (req : Request) : Handler unit :=
  let validator := validateResult req in
  if nonempty validator then
    status 400 ;; send (errors validator)
  else
    offer <- offers_findOne (by_offerId req) ;;
    (if negb (is_found offer) then
       status 404 ;; send (message not_found)
     else ret tt) ;;
    v <- or_field (get "_isActive" (req_body req)) offer Offer.isActive ;;
    response <- offers_updateOne offer (set_isActive v) ;;
    notify response "status" "offer" (get "_idOffer" (req_body req)) ;;
    status 200 ;; send (updated response).

(** [router.put('/offer')] *)
Definition put_offer (req : Request) : Handler unit :=
  let validator := validateResult req in
  if nonempty validator then
    status 400 ;; send (errors validator)
  else
    offer <- offers_findOne
               (fun f => mongo_eq (Offer.hash f)
                           (get "_grinderyTransactionHash" (req_body req))) ;;
    (if negb (is_found offer) then
       status 404 ;; send (message no_offer_found)
     else ret tt) ;;
    response <- offers_updateOne offer
                  (set_offer_success (get "_idOffer" (req_body req))) ;;
    notify response "success" "offer" (get "_idOffer" (req_body req)) ;;
    status 200 ;; send (updated response).

(** [router.put('/order')] *)
Definition put_order (req : Request) : Handler unit :=
  let validator := validateResult req in
  if nonempty validator then
    status 400 ;; send (errors validator)
  else
    order <- orders_findOne
               (fun o => mongo_eq (Order.hash o)
                           (get "_grinderyTransactionHash" (req_body req))) ;;
    (if negb (is_found order) then
       status 404 ;; send (message no_order_found)
     else ret tt) ;;
    response <- orders_updateOne order
                  (set_order_success (get "_idTrade" (req_body req))) ;;
    notify response "success" "order" (get "_idTrade" (req_body req)) ;;
    status 200 ;; send (updated response).

End Webhooks.

(* ===================================================================== *)
(** ** The application: every route with its validator *)
(* ===================================================================== *)

Module App.

Import Orders Webhooks.

Inductive Endpoint : Type :=
| POST_orders
| GET_orders_user
| GET_orders_orderId
| GET_orders_id
| GET_orders_liquidity_provider
| PUT_orders_complete
| DELETE_orders_orderId
| PUT_webhook_offer_max_price
| PUT_webhook_offer_min_price
| PUT_webhook_offer_token
| PUT_webhook_offer_chain
| PUT_webhook_offer_activation_deactivation
| PUT_webhook_offer
| PUT_webhook_order.

(** What the routes use and the sources do not have: the two helpers of
    utils/orders-utils.js, the driver's [ObjectId], the validators of the
    two list routes, validators/webhook.validator.js and the regular
    expression engine of the store.  Every theorem holds whatever they
    are. *)
Record Environment : Type := mkEnvironment {
  getOrdersWithOffers : Db -> list Order.t -> JValue;
  getOneOrderWithOffer : list Offer.t -> option Order.t -> JValue;
  ObjectId : option JValue -> option nat;
  getOrdersPaginationValidator : list ValidationChain;
  getOrdersLiquidityProviderValidator : list ValidationChain;
  updateMaxPriceOfferValidator : list ValidationChain;
  updateMinPriceOfferValidator : list ValidationChain;
  updateTokenOfferValidator : list ValidationChain;
  updateChainIdOfferValidator : list ValidationChain;
  updateStatusOfferValidator : list ValidationChain;
  updateOfferValidator : list ValidationChain;
  updateOrderValidator : list ValidationChain;
  RegExp : string -> option (string -> bool)
}.

(** The validator a route lists before its handler. *)
Definition validator (env : Environment) (e : Endpoint) : list ValidationChain :=
  match e with
  | POST_orders => createOrderValidator
  | GET_orders_user => getOrdersPaginationValidator env
  | GET_orders_orderId => getOrderByOrderIdValidator
  | GET_orders_id => getOrderByIdValidator
  | GET_orders_liquidity_provider => getOrdersLiquidityProviderValidator env
  | PUT_orders_complete => setOrderCompleteValidator
  | DELETE_orders_orderId => deleteOrderValidator
  | PUT_webhook_offer_max_price => updateMaxPriceOfferValidator env
  | PUT_webhook_offer_min_price => updateMinPriceOfferValidator env
  | PUT_webhook_offer_token => updateTokenOfferValidator env
  | PUT_webhook_offer_chain => updateChainIdOfferValidator env
  | PUT_webhook_offer_activation_deactivation => updateStatusOfferValidator env
  | PUT_webhook_offer => updateOfferValidator env
  | PUT_webhook_order => updateOrderValidator env
  end.

(** The handler of a route; [now] is the clock of the server. *)
Definition handler (env : Environment) (now : Z) (e : Endpoint)
    : Request -> Handler unit :=
  match e with
  | POST_orders => post now
  | GET_orders_user => get_user (getOrdersWithOffers env) (RegExp env)
  | GET_orders_orderId => get_orderId (getOneOrderWithOffer env) (RegExp env)
  | GET_orders_id =>
      get_id (getOneOrderWithOffer env) (ObjectId env) (RegExp env)
  | GET_orders_liquidity_provider =>
      get_liquidity_provider (getOrdersWithOffers env) (RegExp env)
  | PUT_orders_complete => put_complete (RegExp env)
  | DELETE_orders_orderId => delete (RegExp env)
  | PUT_webhook_offer_max_price => put_offer_max_price
  | PUT_webhook_offer_min_price => put_offer_min_price
  | PUT_webhook_offer_token => put_offer_token
  | PUT_webhook_offer_chain => put_offer_chain
  | PUT_webhook_offer_activation_deactivation =>
      put_offer_activation_deactivation
  | PUT_webhook_offer => put_offer
  | PUT_webhook_order => put_order
  end.

(** A request to a route, once authentication has let it through: the
    validation chains run as middleware, then the handler, on the store
    [d]. *)
Definition serve (env : Environment) (now : Z) (e : Endpoint) (req : Request)
    (d : Db) : Outcome unit * World :=
  handler env now e (run (validator env e) req) (incoming d).

(** The routes whose handler looks at [validateResult]. *)
Definition inspects_validation (e : Endpoint) : bool :=
  match e with
  | GET_orders_user | GET_orders_liquidity_provider => false
  | _ => true
  end.

(** The documents [find({ orderId })] gives. *)
Definition with_orderId (x : JValue) (d : Db) : list Order.t :=
  filter (fun o => mongo_eq (Order.orderId o) x) (orders d).

End App.

(* ===================================================================== *)
(** ** Notions the statements use *)
(* ===================================================================== *)

Module Rules.

Import Orders Webhooks App.

(** A rule: one validator of one chain, on one field of one section. *)
Record Rule : Type := mkRule {
  rule_location : Location;
  rule_path : string;
  rule_validator : Validator;
  rule_message : option string
}.

Definition rules (chains : list ValidationChain) : list Rule :=
  flat_map
    (fun c =>
       map (fun item =>
              mkRule (chain_location c) (chain_path c) (fst item) (snd item))
           (chain_stack c))
    chains.

(** The value a rule is about. *)
Definition checked (req : Request) (r : Rule) : JValue :=
  select req (rule_location r) (rule_path r).

(** What one rule adds to the errors. *)
Definition check (req : Request) (r : Rule) : list ValidationError :=
  run_validator req (rule_location r) (rule_path r) (checked req r)
    (rule_validator r, rule_message r).

(** The request breaks the rule. *)
Definition violated (req : Request) (r : Rule) : bool :=
  match rule_validator r with
  | isString => negb (is_string (checked req r))
  | custom f => is_found (f req)
  | v => negb (standard v (toString (checked req r)))
  end.

(** The entry that reports the rule. *)
Definition entry (req : Request) (r : Rule) : ValidationError :=
  mkError (checked req r)
    (message_or (rule_message r)
       (match rule_validator r with
        | custom f =>
            match f req with Some thrown => thrown | None => "Invalid value" end
        | _ => "Invalid value"
        end))
    (rule_path r) (rule_location r).

(** Two requests with the same body, query and path parameters. *)
Definition same_sections (a b : Request) : Prop :=
  req_body a = req_body b
  /\ req_query a = req_query b
  /\ req_params a = req_params b.

(** The custom validators read the body, the query and the path parameters
    of the request, nothing else. *)
Definition reads_sections (chains : list ValidationChain) : Prop :=
  forall c item f,
    In c chains -> In item (chain_stack c) -> fst item = custom f ->
    forall a b, same_sections a b -> f a = f b.

(** The keys of a section that are not on its allow-list. *)
Definition extra_keys (allowed : list string) (fields : JObject) : list string :=
  filter (fun k => negb (existsb (String.eqb k) allowed)) (keys fields).

(** The report of the fields [extra] found in section [l]: one entry that
    lists them all, none when there is none. *)
Definition not_allowed (l : Location) (section_value : JObject)
    (extra : list string) : list ValidationError :=
  match extra with
  | [] => []
  | _ =>
      [ mkError (JObj section_value)
          ("The following fields are not allowed in " ++ location_name l ++ ": "
           ++ String.concat ", " extra)%string
          "" l ]
  end.

(** The same creation request sent [n] times in a row. *)
Fixpoint repeat_POST_orders (env : Environment) (now : Z) (req : Request)
    (n : nat) (d : Db) : Db :=
  match n with
  | O => d
  | S k => store (serve env now POST_orders req (repeat_POST_orders env now req k d))
  end.

(** The five webhooks that change one field of an offer, with the key of
    the body that carries the new value. *)
Definition offer_field_key (e : Endpoint) : option string :=
  match e with
  | PUT_webhook_offer_max_price => Some "_upperMaxFn"
  | PUT_webhook_offer_min_price => Some "_lowerLimitFn"
  | PUT_webhook_offer_token => Some "_token"
  | PUT_webhook_offer_chain => Some "_chainId"
  | PUT_webhook_offer_activation_deactivation => Some "_isActive"
  | _ => None
  end.

(** What each of them answers when no offer has the id. *)
Definition offer_absent_reply (e : Endpoint) : nat * Payload :=
  match e with
  | PUT_webhook_offer_activation_deactivation => (404, message not_found)
  | _ => (400, message no_offer_found)
  end.

(** Whether it returns right after that answer. *)
Definition returns_when_absent (e : Endpoint) : bool :=
  match e with
  | PUT_webhook_offer_max_price => true
  | _ => false
  end.

(** [orders] with the document of id [i] changed by [set]. *)
Definition set_in_orders (i : nat) (set : Order.t -> Order.t)
    (l : list Order.t) : list Order.t :=
  map (fun x => if (Order._id x =? i)%nat then set x else x) l.

(** The orders of the store have distinct ids, below the next id to give. *)
Definition wf_db (d : Db) : Prop :=
  NoDup (map Order._id (orders d))
  /\ Forall (fun o => (Order._id o < next_id d)%nat) (orders d).

(** A computation that keeps the store so. *)
Definition keeps_wf {A : Type} (m : Handler A) : Prop :=
  forall w, wf_db (db w) -> wf_db (db (snd (m w))).

(** The test the store runs on a [userId] field for the caller of [req],
    [{ $regex: res.locals.userId, $options: 'i' }]; [None] when the store
    refuses the caller id as a pattern. *)
Definition caller_test (env : Environment) (req : Request)
    : option (string -> bool) :=
  if regex_literal (locals_userId req) then Some (regex_i (locals_userId req))
  else RegExp env (locals_userId req).

(** Dates do not go up along the list. *)
Definition date_descending (l : list Order.t) : Prop :=
  StronglySorted (fun a b => (Order.date b <= Order.date a)%Z) l.

End Rules.

(* ===================================================================== *)
(** ** Concrete requests and stores *)
(* ===================================================================== *)

Module Sample.

Import Orders Webhooks App Rules.

(** Stand-ins for what the sources do not have, to run the routes on
    concrete requests: the helpers return the order ids they were given,
    the list routes want [limit] and [offset], the webhooks want their
    keys to be non-empty strings.  The callers of the samples have ids
    without special characters, so that the regular expression engine, the
    last field, is never asked. *)
Definition env : Environment :=
  mkEnvironment
    (fun _ l => JArr (map Order.orderId l))
    (fun _ o => match o with Some x => Order.orderId x | None => JObj [] end)
    (fun _ => None)
    [ Chain.query "limit" [ withMessage notEmpty must_not_be_empty ];
      Chain.query "offset" [ withMessage notEmpty must_not_be_empty ] ]
    [ Chain.query "isActiveOffers"
        [ withMessage (matches ["true"; "false"]) "must be boolean value" ] ]
    [ Chain.body "_idOffer" string_notEmpty;
      Chain.body "_upperMaxFn" string_notEmpty ]
    [ Chain.body "_idOffer" string_notEmpty;
      Chain.body "_lowerLimitFn" string_notEmpty ]
    [ Chain.body "_idOffer" string_notEmpty;
      Chain.body "_token" string_notEmpty ]
    [ Chain.body "_idOffer" string_notEmpty;
      Chain.body "_chainId" string_notEmpty ]
    [ Chain.body "_idOffer" string_notEmpty ]
    [ Chain.body "_idOffer" string_notEmpty;
      Chain.body "_grinderyTransactionHash" string_notEmpty ]
    [ Chain.body "_idTrade" string_notEmpty;
      Chain.body "_grinderyTransactionHash" string_notEmpty ]
    (fun _ => None).

Definition empty_db : Db := mkDb [] [] 0.

(** The order of test/orders.js, with a status, the order id [x] and the
    hash [h]. *)
Definition order_body_with (x : string) (h : JValue) : JObject :=
  [ ("status", JStr "pending");
    ("amountTokenDeposit", JStr "0.34");
    ("addressTokenDeposit", JStr "0x0");
    ("chainIdTokenDeposit", JStr "13434");
    ("destAddr", JStr "mydestAddr");
    ("offerId", JStr "myOfferId");
    ("orderId", JStr x);
    ("amountTokenOffer", JStr "5433");
    ("hash", h) ].

Definition order_body (x : string) : JObject := order_body_with x (JStr "myhash").

(** A request of the caller [user], every query parameter given once. *)
Definition request (user : string) (b : JObject) (q : list (string * string))
    : Request :=
  mkRequest b (strings q) [] user [].

Definition alice := "eip155:1:0xA11CE".
Definition mallory := "0xa11".

(** The store after Alice has created the order [myOrderId] at time 10. *)
Definition one_order : Db :=
  store (serve env 10 POST_orders (request alice (order_body "myOrderId") [])
           empty_db).

(** The store after the webhook has told that order settled as [trade-1]. *)
Definition settled_order : Db :=
  store (serve env 11 PUT_webhook_order
           (request ""
              [ ("_idTrade", JStr "trade-1");
                ("_grinderyTransactionHash", JStr "myhash") ] [])
           one_order).

End Sample.


(* ===================================================================== *)
(** ** Notions for the further properties of the routes *)
(* ===================================================================== *)

Module Behaviour.

Import Orders Webhooks App Rules.

(** The routes that only read. *)
Definition is_read (e : Endpoint) : bool :=
  match e with
  | GET_orders_user | GET_orders_orderId | GET_orders_id
  | GET_orders_liquidity_provider => true
  | _ => false
  end.

(** The webhooks on the [offers] collection. *)
Definition on_offers (e : Endpoint) : bool :=
  match e with
  | PUT_webhook_offer_max_price | PUT_webhook_offer_min_price
  | PUT_webhook_offer_token | PUT_webhook_offer_chain
  | PUT_webhook_offer_activation_deactivation | PUT_webhook_offer => true
  | _ => false
  end.

(** The routes of routes/webhooks.js. *)
Definition is_webhook (e : Endpoint) : bool :=
  on_offers e || match e with PUT_webhook_order => true | _ => false end.

(** A handler leaves what [obs] sees of the world as it was. *)
Definition keeps {A T : Type} (obs : World -> T) (m : Handler A) : Prop :=
  forall w, obs (snd (m w)) = obs w.

(** The fields of the body [createOrderValidator] wants to be strings that
    are not empty. *)
Definition createOrder_strings : list string :=
  [ "amountTokenDeposit"; "addressTokenDeposit"; "chainIdTokenDeposit";
    "destAddr"; "amountTokenOffer"; "offerId"; "hash" ].

Definition nonempty_string (v : JValue) : Prop :=
  exists s, v = JStr s /\ s <> "".

(** [l] without the document of id [i]. *)
Definition remove_order (i : nat) (l : list Order.t) : list Order.t :=
  filter (fun x => negb (Order._id x =? i)%nat) l.

(** [offers] with the document of id [i] changed by [set]. *)
Definition set_in_offers (i : nat) (set : Offer.t -> Offer.t)
    (l : list Offer.t) : list Offer.t :=
  map (fun x => if (Offer._id x =? i)%nat then set x else x) l.

(** The filter of [router.put('/complete')]. *)
Definition complete_filter (req : Request) (o : Order.t) : bool :=
  mongo_eq (Order.orderId o) (get "orderId" (req_body req))
  && regex_i (locals_userId req) (Order.userId o)
  && String.eqb (Order.status o) ORDER_STATUS.SUCCESS.

(** The filter of [router.delete('/:orderId')]. *)
Definition delete_filter (req : Request) (o : Order.t) : bool :=
  mongo_eq (Order.orderId o) (param_value req "orderId")
  && regex_i (locals_userId req) (Order.userId o).

(** The filter of [router.put('/order')] of the webhooks. *)
Definition by_hash (req : Request) (o : Order.t) : bool :=
  mongo_eq (Order.hash o) (get "_grinderyTransactionHash" (req_body req)).


(** The field each of the five one-field webhooks reads and writes, and
    the method it dispatches. *)
Definition offer_field_get (e : Endpoint) : Offer.t -> JValue :=
  match e with
  | PUT_webhook_offer_max_price => Offer.max
  | PUT_webhook_offer_min_price => Offer.min
  | PUT_webhook_offer_token => Offer.tokenAddress
  | PUT_webhook_offer_chain => Offer.chainId
  | PUT_webhook_offer_activation_deactivation => Offer.isActive
  | _ => fun _ => JUndefined
  end.

Definition offer_field_set (e : Endpoint) : JValue -> Offer.t -> Offer.t :=
  match e with
  | PUT_webhook_offer_max_price => set_max
  | PUT_webhook_offer_min_price => set_min
  | PUT_webhook_offer_token => set_tokenAddress
  | PUT_webhook_offer_chain => set_chainId
  | PUT_webhook_offer_activation_deactivation => set_isActive
  | _ => fun _ f => f
  end.

Definition offer_method (e : Endpoint) : string :=
  match e with
  | PUT_webhook_offer_max_price => "maxPrice"
  | PUT_webhook_offer_min_price => "minPrice"
  | PUT_webhook_offer_token => "token"
  | PUT_webhook_offer_chain => "chain"
  | PUT_webhook_offer_activation_deactivation => "status"
  | _ => ""
  end.

(** What [isActiveOffers] asks of the offers of [/liquidity-provider]:
    nothing when it is missing or empty, [isActive] equal to the
    truthiness of the parsed text otherwise; [None] when the text does not
    parse (or is left out of [JSON_parse]). *)
Definition wanted_isActive (q : option JValue) : option (option bool) :=
  match q with
  | None => Some None
  | Some (JStr text) =>
      if String.eqb text "" then Some None
      else match JSON_parse text with
           | parsed b => Some (Some b)
           | _ => None
           end
  | Some _ => None
  end.

Definition offer_wanted (w : option bool) (f : Offer.t) : bool :=
  match w with
  | None => true
  | Some b => mongo_eq (Offer.isActive f) (JBool b)
  end.

(** The request [GET /orders/orderId?orderId=x] of a caller. *)
Definition get_by_orderId (user x : string) : Request :=
  mkRequest [] [("orderId", JStr x)] [] user [].

(** The request [DELETE /orders/x] of a caller. *)
Definition delete_by_orderId (user x : string) : Request :=
  mkRequest [] [] [("orderId", x)] user [].

(** A request as it reaches the server: the time, the route, the request. *)
Record Call : Type := mkCall {
  call_now : Z;
  call_endpoint : Endpoint;
  call_request : Request
}.

(** The store after a series of requests, served one after the other. *)
Definition serve_all (env : Environment) (calls : list Call) (d : Db) : Db :=
  fold_left
    (fun d c => store (serve env (call_now c) (call_endpoint c) (call_request c) d))
    calls d.

(** The filters of [router.get('/orderId')] and [router.get('/id')]. *)
Definition orderId_filter (req : Request) (o : Order.t) : bool :=
  regex_i (locals_userId req) (Order.userId o)
  && mongo_eq (Order.orderId o) (query_value req "orderId").

Definition id_filter (req : Request) (i : nat) (o : Order.t) : bool :=
  regex_i (locals_userId req) (Order.userId o) && (Order._id o =? i)%nat.

(** Another caller, and an order of his that settled under the trade id of
    Alice's. *)
Definition bob := "eip155:1:0xB0B".

Definition bobs_order : Order.t :=
  set_order_success (JStr "trade-1")
    (newDocument 12 (Sample.request bob (Sample.order_body "bobOrder") []) 1).

(** Alice's settled order and Bob's. *)
Definition two_settled : Db :=
  mkDb (orders Sample.settled_order ++ [bobs_order]) [] 2.

(** A store with one offer, not yet confirmed. *)
Definition an_offer : Offer.t :=
  Offer.mk 0 (JStr "offer-1") Sample.alice (JStr "offerhash") (JBool true)
    (JStr "1") (JStr "10") (JStr "0xToken") (JStr "5") (JStr "pending").

Definition one_offer : Db := mkDb [] [an_offer] 1.

End Behaviour.

(* ===================================================================== *)
(** ** Facts about the model *)
(* ===================================================================== *)

Import Orders Webhooks App Rules.

Section ListFacts.
Context {A B : Type}.

Lemma fold_left_push (f : A -> list B) (l : list A) (acc : list B) :
  fold_left (fun errors x => errors ++ f x) l acc = acc ++ flat_map f l.
Proof.
  revert acc. induction l as [|x l IH]; intros acc; simpl.
  - now rewrite app_nil_r.
  - rewrite IH. now rewrite app_assoc.
Qed.

Lemma nonempty_true (l : list A) : l <> [] -> nonempty l = true.
Proof. destruct l; [congruence | reflexivity]. Qed.

Lemma nonempty_nil (l : list A) : l = [] -> nonempty l = false.
Proof. intros ->. reflexivity. Qed.

Lemma is_found_find (p : A -> bool) (l : list A) :
  is_found (find p l) = true <-> exists x, In x l /\ p x = true.
Proof.
  destruct (find p l) as [x|] eqn:E; simpl; split.
  - intros _. exists x. now apply find_some in E.
  - reflexivity.
  - discriminate.
  - intros (x & Hin & Hp). now rewrite (find_none _ _ E x Hin) in Hp.
Qed.

Lemma filter_find (p : A -> bool) (l : list A) :
  filter p l <> [] -> is_found (find p l) = true.
Proof.
  induction l as [|x l IH]; simpl; [congruence|].
  destruct (p x); [reflexivity | exact IH].
Qed.

End ListFacts.

Lemma jeqb_refl : forall v, jeqb v v = true.
Proof.
  fix IH 1. intros [| |b|n|s|l|l]; simpl.
  - reflexivity.
  - reflexivity.
  - apply Bool.eqb_reflx.
  - apply Z.eqb_refl.
  - apply String.eqb_refl.
  - induction l as [|x l IHl]; [reflexivity|].
    rewrite (IH x). exact IHl.
  - induction l as [|[k x] l IHl]; [reflexivity|].
    rewrite String.eqb_refl, (IH x). exact IHl.
Qed.

Lemma jeqb_empty_string v : jeqb v (JStr "") = true <-> v = JStr "".
Proof.
  destruct v; simpl; split; try discriminate; try reflexivity.
  - intros H. apply String.eqb_eq in H. now subst.
  - intros H. injection H as ->. reflexivity.
Qed.

Lemma same_field_refl v : same_field v v = true.
Proof.
  destruct v; simpl; try reflexivity; unfold mongo_eq; simpl;
    rewrite ?Bool.eqb_reflx, ?Z.eqb_refl, ?String.eqb_refl; try reflexivity.
  - change (jeqb (JArr items) (JArr items) || existsb (fun x => jeqb x (JArr items)) items = true).
    now rewrite jeqb_refl.
  - change (jeqb (JObj props) (JObj props) || false = true).
    now rewrite jeqb_refl.
Qed.

Lemma validateResult_contexts req : validateResult req = contexts req.
Proof.
  unfold validateResult, validationResult.
  destruct (contexts req); reflexivity.
Qed.

(** The chains leave the request as it came, but for their errors. *)
Lemma run_request chains : forall req,
  req_body (run chains req) = req_body req
  /\ req_query (run chains req) = req_query req
  /\ req_params (run chains req) = req_params req
  /\ locals_userId (run chains req) = locals_userId req.
Proof.
  induction chains as [|c chains IH]; intros req.
  - simpl. auto.
  - unfold run in *. simpl.
    destruct (IH (mkRequest (req_body req) (req_query req) (req_params req)
                    (locals_userId req) (contexts req ++ run_chain req c)))
      as (H1 & H2 & H3 & H4).
    simpl in *. auto.
Qed.

Lemma run_body chains req : req_body (run chains req) = req_body req.
Proof. apply run_request. Qed.

Lemma run_query chains req : req_query (run chains req) = req_query req.
Proof. apply run_request. Qed.

Lemma run_params chains req : req_params (run chains req) = req_params req.
Proof. apply run_request. Qed.

Lemma run_userId chains req : locals_userId (run chains req) = locals_userId req.
Proof. apply run_request. Qed.

Ltac exec :=
  unfold serve, handler, incoming, response, store;
  unfold post, get_user, get_orderId, get_id, get_liquidity_provider,
    put_complete, delete, put_offer_max_price, put_offer_min_price,
    put_offer_token, put_offer_chain, put_offer_activation_deactivation,
    put_offer, put_order.

(** The validation gate of the twelve routes that look at the result of the
    validation: errors are answered with 400 and the error array, and the
    store is not touched. *)
Lemma validation_gate env now e req d :
  inspects_validation e = true ->
  validateResult (run (validator env e) req) <> [] ->
  let r := serve env now e req d in
  response r = Some (400, errors (validateResult (run (validator env e) req)))
  /\ store r = d /\ writes (snd r) = [] /\ dispatched (snd r) = [].
Proof.
  intros He Hv r. subst r.
  apply nonempty_true in Hv.
  destruct e; try discriminate He; exec; rewrite Hv; cbn; auto.
Qed.

(* ===================================================================== *)
(** ** Creating an order *)
(* ===================================================================== *)

(** What [router.post('/')] does with a request that passed validation:
    whether or not it answers "already exists", it inserts. *)
Lemma post_validated now req d :
  validateResult req = [] ->
  let x := get "orderId" (req_body req) in
  let dup :=
    is_found (find (fun o => mongo_eq (Order.orderId o) x) (orders d))
    && negb (jeqb x (JStr "")) in
  post now req (incoming d) =
  (if dup then Throw ERR_HTTP_HEADERS_SENT else Return tt,
   mkWorld
     (mkDb (orders d ++ [newDocument now req (next_id d)]) (offers d)
        (S (next_id d)))
     (if dup then mkRes 404 (Some (404, message already_exists))
      else mkRes 201 (Some (200, inserted (mkInsert true (next_id d)))))
     [insertOne "orders" (next_id d)] []).
Proof.
  intros Hv x dup. unfold post. rewrite (nonempty_nil _ Hv).
  unfold bind, orders_findOne, read_db, incoming, bind, ret. cbn.
  fold x. fold dup. destruct dup; reflexivity.
Qed.

Lemma newDocument_run chains now req i :
  newDocument now (run chains req) i = newDocument now req i.
Proof. unfold newDocument. now rewrite run_body, run_userId. Qed.

Lemma POST_orders_validated env now req d :
  validateResult (run createOrderValidator req) = [] ->
  let x := get "orderId" (req_body req) in
  let dup :=
    is_found (find (fun o => mongo_eq (Order.orderId o) x) (orders d))
    && negb (jeqb x (JStr "")) in
  let r := serve env now POST_orders req d in
  response r
  = Some (if dup then (404, message already_exists)
          else (200, inserted (mkInsert true (next_id d))))
  /\ orders (store r) = orders d ++ [newDocument now req (next_id d)].
Proof.
  intros Hv x dup r. subst r. unfold serve. cbn [handler validator].
  rewrite (post_validated now _ d Hv). rewrite newDocument_run, run_body.
  fold x. fold dup. unfold response, store.
  destruct dup; auto.
Qed.

Lemma with_orderId_app x d l :
  with_orderId x (mkDb (orders d ++ l) (offers d) (next_id d))
  = with_orderId x d ++ filter (fun o => mongo_eq (Order.orderId o) x) l.
Proof. unfold with_orderId. simpl. apply filter_app. Qed.

(** C1 (as the code has it): a second creation with the same non-empty
    order id is answered 404 "This order already exists.", but the handler
    does not return there and inserts the document all the same: the store
    then has one more document with that id, not the same number. *)
Theorem duplicate_creation_still_inserts env now req d X :
  validateResult (run createOrderValidator req) = [] ->
  get "orderId" (req_body req) = JStr X ->
  X <> "" ->
  with_orderId (JStr X) d <> [] ->
  let r := serve env now POST_orders req d in
  response r = Some (404, message already_exists)
  /\ List.length (with_orderId (JStr X) (store r))
     = S (List.length (with_orderId (JStr X) d)).
Proof.
  intros Hv HX Hne Hex r.
  destruct (POST_orders_validated env now req d Hv) as [Hr Hs].
  fold r in Hr, Hs. rewrite HX in Hr.
  apply filter_find in Hex. unfold with_orderId in Hex |- *. rewrite Hex in Hr.
  assert (Hn : jeqb (JStr X) (JStr "") = false).
  { simpl. now apply String.eqb_neq. }
  rewrite Hn in Hr. simpl in Hr. split; [exact Hr|].
  rewrite Hs, filter_app, length_app. simpl.
  unfold newDocument at 1. simpl. rewrite HX.
  unfold mongo_eq. simpl. rewrite String.eqb_refl. simpl. lia.
Qed.

Lemma duplicate_creation_still_inserts_witness :
  let req := Sample.request Sample.alice (Sample.order_body "myOrderId") [] in
  let r := serve Sample.env 11 POST_orders req Sample.one_order in
  response r = Some (404, message already_exists)
  /\ List.length (with_orderId (JStr "myOrderId") (store r)) = 2%nat.
Proof.
  intros req r.
  apply (duplicate_creation_still_inserts Sample.env 11 req Sample.one_order
           "myOrderId").
  - reflexivity.
  - reflexivity.
  - discriminate.
  - discriminate.
Defined.

Lemma repeat_POST_orders_empty_id env now req :
  validateResult (run createOrderValidator req) = [] ->
  get "orderId" (req_body req) = JStr "" ->
  forall n d,
    List.length (with_orderId (JStr "") (repeat_POST_orders env now req n d))
    = List.length (with_orderId (JStr "") d) + n.
Proof.
  intros Hv Hx. induction n as [|n IH]; intros d; cbn [repeat_POST_orders].
  - lia.
  - destruct (POST_orders_validated env now req
                (repeat_POST_orders env now req n d) Hv) as [_ Hs].
    unfold with_orderId at 1. rewrite Hs, filter_app, length_app.
    fold (with_orderId (JStr "") (repeat_POST_orders env now req n d)).
    rewrite IH. cbn [filter].
    change (Order.orderId (newDocument now req
                             (next_id (repeat_POST_orders env now req n d))))
      with (get "orderId" (req_body req)).
    rewrite Hx. cbn. lia.
Qed.

(** C9: the creation answers "already exists" exactly when the order id is
    not the empty string and some order has it.  With the empty string the
    answer is the insertion, whatever the store holds, so that any number
    of orders with an empty id pile up; and the creation validator lets the
    empty id through. *)
Theorem already_exists_iff_nonempty_duplicate env now req d :
  validateResult (run createOrderValidator req) = [] ->
  let x := get "orderId" (req_body req) in
  let r := serve env now POST_orders req d in
  (response r = Some (404, message already_exists)
   <-> x <> JStr ""
       /\ exists o, In o (orders d) /\ mongo_eq (Order.orderId o) x = true)
  /\ (x = JStr "" ->
      response r = Some (200, inserted (mkInsert true (next_id d)))
      /\ orders (store r) = orders d ++ [newDocument now req (next_id d)]
      /\ forall n,
           List.length
             (with_orderId (JStr "") (repeat_POST_orders env now req n d))
           = List.length (with_orderId (JStr "") d) + n)
  /\ (forall user,
        validateResult
          (run createOrderValidator
             (Sample.request user (Sample.order_body "") [])) = []).
Proof.
  intros Hv x r.
  destruct (POST_orders_validated env now req d Hv) as [Hr Hs].
  fold x in Hr. fold r in Hr, Hs.
  split; [|split].
  - rewrite Hr. split.
    + intros H.
      destruct (is_found (find (fun o => mongo_eq (Order.orderId o) x) (orders d)))
        eqn:Ef; simpl in H; [|discriminate].
      destruct (jeqb x (JStr "")) eqn:Ex; simpl in H; [discriminate|].
      split.
      * intros Hx. apply jeqb_empty_string in Hx. congruence.
      * now apply is_found_find in Ef.
    + intros [Hx Ho].
      apply (is_found_find (fun o => mongo_eq (Order.orderId o) x)) in Ho.
      rewrite Ho.
      destruct (jeqb x (JStr "")) eqn:Ex.
      * apply jeqb_empty_string in Ex. contradiction.
      * reflexivity.
  - intros Hx. split; [|split].
    + rewrite Hr, Hx. simpl. rewrite andb_false_r. reflexivity.
    + exact Hs.
    + intros n. now apply repeat_POST_orders_empty_id.
  - intros user. reflexivity.
Qed.

Lemma already_exists_iff_nonempty_duplicate_witness :
  let req := Sample.request Sample.alice (Sample.order_body "") [] in
  let r := serve Sample.env 12 POST_orders req Sample.one_order in
  response r = Some (200, inserted (mkInsert true 1))
  /\ List.length
       (with_orderId (JStr "")
          (repeat_POST_orders Sample.env 12 req 3 Sample.one_order)) = 3%nat.
Proof.
  intros req r.
  destruct (already_exists_iff_nonempty_duplicate Sample.env 12 req
              Sample.one_order)
    as (_ & H & _).
  - reflexivity.
  - destruct (H eq_refl) as (Hr & _ & Hn). split.
    + exact Hr.
    + exact (Hn 3%nat).
Defined.

(* ===================================================================== *)
(** ** The two list routes *)
(* ===================================================================== *)

(** [router.get('/user')] on a request whose caller id is a plain pattern
    and whose [offset] and [limit] are in the part of [+q || 0] that is
    modelled: the answer is 200 with the page of the caller's orders.
    Nothing in it depends on the validation. *)
Lemma get_user_run g re req d off lim :
  regex_literal (locals_userId req) = true ->
  to_number_or_0 (lookup "offset" (req_query req)) = Some off ->
  to_number_or_0 (lookup "limit" (req_query req)) = Some lim ->
  let query := fun o => regex_i (locals_userId req) (Order.userId o) in
  get_user g re req (incoming d) =
  (Return tt,
   mkWorld d
     (mkRes 200
        (Some (200,
               order_page
                 (g d (page off lim (sort_date_desc (filter query (orders d)))))
                 (List.length (filter query (orders d))))))
     [] []).
Proof.
  intros Hu Ho Hl query. unfold get_user, user_regex, number_or_0.
  rewrite Hu, Ho, Hl. reflexivity.
Qed.

Lemma insert_by_date_In o x l : In x (insert_by_date o l) <-> x = o \/ In x l.
Proof.
  induction l as [|y l IH]; simpl.
  - intuition.
  - destruct (Order.date y <=? Order.date o)%Z; simpl; [intuition|].
    rewrite IH. intuition.
Qed.

Lemma sort_date_desc_In x l : In x (sort_date_desc l) <-> In x l.
Proof.
  induction l as [|y l IH]; simpl; [reflexivity|].
  rewrite insert_by_date_In, IH. intuition.
Qed.

Lemma insert_by_date_sorted o l :
  date_descending l -> date_descending (insert_by_date o l).
Proof.
  unfold date_descending. induction 1 as [|y l Hs IH Hall]; simpl.
  - constructor; constructor.
  - destruct (Order.date y <=? Order.date o)%Z eqn:E.
    + apply Z.leb_le in E. constructor.
      * now constructor.
      * constructor; [exact E|].
        rewrite Forall_forall in Hall |- *. intros z Hz.
        specialize (Hall z Hz). lia.
    + apply Z.leb_gt in E. constructor; [exact IH|].
      rewrite Forall_forall in Hall |- *. intros z Hz.
      apply insert_by_date_In in Hz. destruct Hz as [->|Hz]; [lia|auto].
Qed.

Lemma sort_date_desc_sorted l : date_descending (sort_date_desc l).
Proof.
  induction l as [|y l IH]; simpl.
  - constructor.
  - now apply insert_by_date_sorted.
Qed.

Lemma insert_by_date_perm o l : Permutation (o :: l) (insert_by_date o l).
Proof.
  induction l as [|y l IH]; simpl; [reflexivity|].
  destruct (Order.date y <=? Order.date o)%Z; [reflexivity|].
  rewrite perm_swap. now constructor.
Qed.

Lemma sort_date_desc_perm l : Permutation l (sort_date_desc l).
Proof.
  induction l as [|y l IH]; simpl; [constructor|].
  rewrite <- insert_by_date_perm. now constructor.
Qed.

(** The page is a stretch of the sorted list: what is skipped, the page,
    what is cut off; and it is no longer than a non-zero limit. *)
Lemma page_stretch off lim l :
  exists after, l = firstn off l ++ page off lim l ++ after
                /\ (lim <> 0%nat -> List.length (page off lim l) <= lim)
                /\ (lim = 0%nat -> after = []).
Proof.
  unfold page. destruct (Nat.eqb_spec lim 0) as [->|Hl].
  - exists []. rewrite app_nil_r, firstn_skipn. intuition.
  - exists (skipn lim (skipn off l)).
    rewrite firstn_skipn, firstn_skipn. split; [reflexivity|]. split.
    + intros _. rewrite length_firstn. lia.
    + contradiction.
Qed.

(** The orders [GET /orders/user] hands on are taken from the store, sorted
    by date descending, a page of them cut out after [offset] and of at
    most [limit]; they are the orders whose [userId] has the caller's id
    somewhere in it, up to case. *)
Lemma get_user_page env now req d off lim :
  regex_literal (locals_userId req) = true ->
  to_number_or_0 (lookup "offset" (req_query req)) = Some off ->
  to_number_or_0 (lookup "limit" (req_query req)) = Some lim ->
  exists found,
    response (serve env now GET_orders_user req d)
    = Some (200,
            order_page (getOrdersWithOffers env d (page off lim found))
              (List.length found))
    /\ date_descending found
    /\ forall o, In o found
                 <-> In o (orders d)
                     /\ contains_ci (locals_userId req) (Order.userId o) = true.
Proof.
  intros Hu Ho Hl.
  exists (sort_date_desc
            (filter (fun o => regex_i (locals_userId req) (Order.userId o))
               (orders d))).
  split; [|split].
  - unfold serve. cbn [handler validator].
    rewrite (get_user_run _ _ _ d off lim);
      rewrite ?run_userId, ?run_query; auto.
    unfold response. cbn [snd res sent].
    now rewrite <- (Permutation_length (sort_date_desc_perm _)).
  - apply sort_date_desc_sorted.
  - intros o. rewrite sort_date_desc_In, filter_In. reflexivity.
Qed.

(** C5 (as the code has it): the filter [{ $regex: userId, $options: 'i' }]
    is not anchored.  Alice has one order; Mallory, whose id is a part of
    Alice's, asks for his orders and is given hers. *)
Theorem get_user_returns_orders_of_another_user env now :
  let d := Sample.one_order in
  let r := serve env now GET_orders_user (Sample.request Sample.mallory [] []) d in
  exists o,
    orders d = [o]
    /\ Order.userId o = Sample.alice
    /\ eqb_ci Sample.alice Sample.mallory = false
    /\ response r
       = Some (200, order_page (getOrdersWithOffers env d [o]) 1).
Proof.
  intros d r.
  exists (newDocument 10
            (Sample.request Sample.alice (Sample.order_body "myOrderId") []) 0).
  split; [reflexivity|]. split; [reflexivity|]. split; [reflexivity|].
  subst r. unfold serve. cbn [handler validator].
  rewrite (get_user_run _ _ _ d 0 0);
    rewrite ?run_userId, ?run_query; reflexivity.
Qed.

(** C2 (as the code has it): [GET /orders/user] lists a validator and never
    looks at its result; a request the validator found errors in is
    answered 200 with a page of orders, not 400 with the errors. *)
Theorem get_user_answers_200_despite_errors env now req d :
  validateResult (run (validator env GET_orders_user) req) <> [] ->
  regex_literal (locals_userId req) = true ->
  lookup "offset" (req_query req) = None ->
  lookup "limit" (req_query req) = None ->
  let r := serve env now GET_orders_user req d in
  (exists page total, response r = Some (200, order_page page total))
  /\ response r
     <> Some (400, errors (validateResult (run (validator env GET_orders_user) req)))
  /\ store r = d.
Proof.
  intros _ Hu Ho Hl r.
  subst r. unfold serve. cbn [handler validator].
  rewrite (get_user_run _ _ _ d 0 0);
    rewrite ?run_userId, ?run_query, ?Ho, ?Hl; auto.
  split; [|split].
  - eexists _, _. reflexivity.
  - discriminate.
  - reflexivity.
Qed.

Lemma get_user_answers_200_despite_errors_witness :
  let req := Sample.request Sample.alice [] [] in
  let r := serve Sample.env 12 GET_orders_user req Sample.one_order in
  List.length (validateResult (run (validator Sample.env GET_orders_user) req))
  = 2%nat
  /\ exists page total, response r = Some (200, order_page page total).
Proof.
  intros req r. split; [reflexivity|].
  apply (get_user_answers_200_despite_errors Sample.env 12 req Sample.one_order).
  - discriminate.
  - reflexivity.
  - reflexivity.
  - reflexivity.
Defined.

(** C10 (as the code has it): [GET /orders/liquidity-provider] lists a
    validator and never looks at its result, so that a request the
    validator refuses reaches the handler; and the handler does not always
    answer 200.  On an [isActiveOffers] that is not empty and is no JSON
    text, [JSON.parse] throws: whatever the validator, the caller and the
    store, the route answers nothing at all, neither 200 nor 400. *)
Theorem malformed_flag_reaches_JSON_parse env now req d text :
  lookup "isActiveOffers" (req_query req) = Some (JStr text) ->
  text <> "" ->
  JSON_parse text = syntax_error ->
  let r := serve env now GET_orders_liquidity_provider req d in
  fst r = Throw SyntaxError
  /\ response r = None
  /\ store r = d.
Proof.
  intros Hq Ht Hp r. subst r. unfold serve. cbn [handler validator].
  unfold get_liquidity_provider, isActiveOffers_filter, JSON_parse_truthy.
  rewrite run_query, Hq, Hp.
  apply String.eqb_neq in Ht. rewrite Ht.
  repeat split.
Qed.

Lemma malformed_flag_reaches_JSON_parse_witness :
  let req := Sample.request Sample.alice [] [("isActiveOffers", "abc")] in
  let r := serve Sample.env 12 GET_orders_liquidity_provider req Sample.one_order in
  validateResult (run (validator Sample.env GET_orders_liquidity_provider) req)
  = [ mkError (JStr "abc") "must be boolean value" "isActiveOffers" in_query ]
  /\ fst r = Throw SyntaxError
  /\ response r = None.
Proof.
  intros req r. split; [reflexivity|].
  destruct (malformed_flag_reaches_JSON_parse Sample.env 12 req Sample.one_order
              "abc")
    as (H1 & H2 & _); [reflexivity | discriminate | reflexivity |].
  split; [exact H1 | exact H2].
Defined.

(* ===================================================================== *)
(** ** The webhooks *)
(* ===================================================================== *)

Lemma order_filter_refl o : order_filter o o = true.
Proof.
  unfold order_filter.
  now rewrite Nat.eqb_refl, !same_field_refl, !String.eqb_refl, Z.eqb_refl,
    Bool.eqb_reflx.
Qed.

Lemma order_filter_id q d : Order._id d <> Order._id q -> order_filter q d = false.
Proof.
  intros H. unfold order_filter.
  apply Nat.eqb_neq in H. now rewrite H.
Qed.

Lemma set_in_orders_absent i set l :
  ~ In i (map Order._id l) -> set_in_orders i set l = l.
Proof.
  induction l as [|x l IH]; simpl; [reflexivity|]. intros H.
  destruct (Nat.eqb_spec (Order._id x) i) as [E|E].
  - exfalso. apply H. now left.
  - f_equal. apply IH. intros Hin. apply H. now right.
Qed.

(** With distinct ids, a document of the store used as the filter of
    [updateOne] picks that document and no other. *)
Lemma update_first_order o set l :
  NoDup (map Order._id l) -> In o l ->
  update_first order_eqb (order_filter o) set l
  = (set_in_orders (Order._id o) set l,
     mkUpdate 1 (if order_eqb (set o) o then 0 else 1)).
Proof.
  induction l as [|x l IH]; simpl; [contradiction|].
  intros Hnd Hin. inversion Hnd as [|? ? Hx Hnd']; subst.
  destruct Hin as [->|Hin].
  - rewrite order_filter_refl, Nat.eqb_refl.
    now rewrite set_in_orders_absent.
  - assert (Hne : Order._id x <> Order._id o).
    { intros E. apply Hx. rewrite E. now apply in_map. }
    rewrite (order_filter_id _ _ Hne), (IH Hnd' Hin).
    apply Nat.eqb_neq in Hne. now rewrite Hne.
Qed.

(** C3 (amended): the order webhook finds the order by [hash], the first
    one of the store with that hash, whatever its status; it gives it the
    [orderId] of the request and the status [success] and answers 200.
    When no order has the hash it answers 404 "No order found" and the
    store stays as it is. *)
Theorem webhook_order_by_hash env now req d :
  validateResult (run (validator env PUT_webhook_order) req) = [] ->
  NoDup (map Order._id (orders d)) ->
  let h := get "_grinderyTransactionHash" (req_body req) in
  let i := get "_idTrade" (req_body req) in
  let r := serve env now PUT_webhook_order req d in
  match find (fun o => mongo_eq (Order.hash o) h) (orders d) with
  | Some o =>
      (exists u, response r = Some (200, updated u))
      /\ orders (store r)
         = set_in_orders (Order._id o) (set_order_success i) (orders d)
      /\ Order.orderId (set_order_success i o) = bson i
      /\ Order.status (set_order_success i o) = ORDER_STATUS.SUCCESS
  | None =>
      response r = Some (404, message no_order_found) /\ store r = d
  end.
Proof.
  intros Hv Hnd h i r. subst r. unfold serve. cbn [handler validator] in *.
  unfold put_order. rewrite (nonempty_nil _ Hv), run_body. fold h. fold i.
  unfold bind at 1. unfold orders_findOne, read_db, bind, ret, incoming.
  cbn [db].
  destruct (find (fun o => mongo_eq (Order.hash o) h) (orders d)) as [o|] eqn:Ef.
  - apply find_some in Ef. destruct Ef as [Hin _].
    cbn. rewrite (update_first_order o _ _ Hnd Hin).
    destruct (order_eqb (set_order_success i o) o); cbn;
      (split; [eexists; reflexivity|]); auto.
  - cbn. destruct d. auto.
Qed.

Lemma webhook_order_by_hash_witness :
  let req :=
    Sample.request ""
      [("_idTrade", JStr "trade-1"); ("_grinderyTransactionHash", JStr "myhash")]
      [] in
  let r := serve Sample.env 12 PUT_webhook_order req Sample.one_order in
  map (fun o => (Order.orderId o, Order.status o)) (orders (store r))
  = [(JStr "trade-1", "success")].
Proof.
  intros req r.
  pose proof (webhook_order_by_hash Sample.env 12 req Sample.one_order) as H.
  assert (Hv : validateResult (run (validator Sample.env PUT_webhook_order) req) = [])
    by reflexivity.
  assert (Hnd : NoDup (map Order._id (orders Sample.one_order))).
  { repeat constructor. simpl. tauto. }
  specialize (H Hv Hnd). cbn in H.
  destruct H as (_ & Hs & _).
  exact (f_equal (map (fun o => (Order.orderId o, Order.status o))) Hs).
Defined.

(** C3 as stated fails: when no order has the hash the answer is 404, not
    200; the handler does go on, but the 404 has left by then. *)
Lemma webhook_order_absent_answers_404 :
  let req :=
    Sample.request ""
      [("_idTrade", JStr "trade-1"); ("_grinderyTransactionHash", JStr "nohash")]
      [] in
  let r := serve Sample.env 12 PUT_webhook_order req Sample.one_order in
  find (fun o => mongo_eq (Order.hash o) (JStr "nohash")) (orders Sample.one_order)
  = None
  /\ response r = Some (404, message no_order_found)
  /\ ~ (exists p, response r = Some (200, p)).
Proof.
  split; [reflexivity|]. split; [reflexivity|].
  intros [p H]. discriminate H.
Qed.

(** C8 (amended): when no offer has the id and the request carries the new
    value, the min-price, token and chain webhooks answer 400 "No offer
    found", the activation webhook answers 404 "Not found.", and all four
    go on to call [updateOne] with the [null] filter; the max-price webhook
    answers 400 "No offer found" and returns, without any [updateOne].  The
    store is the same afterwards and nothing is dispatched. *)
Theorem offer_webhooks_when_absent env now e req d key :
  offer_field_key e = Some key ->
  validateResult (run (validator env e) req) = [] ->
  find (by_offerId req) (offers d) = None ->
  nullish (get key (req_body req)) = false ->
  let r := serve env now e req d in
  response r = Some (offer_absent_reply e)
  /\ writes (snd r)
     = (if returns_when_absent e then [] else [updateOne "offers" None])
  /\ store r = d
  /\ dispatched (snd r) = [].
Proof.
  intros Hk Hv Hf Hn r. subst r. unfold serve.
  assert (Hb : by_offerId (run (validator env e) req) = by_offerId req).
  { unfold by_offerId. now rewrite run_body. }
  destruct e; try discriminate Hk; injection Hk as <-;
    cbn [handler validator] in *; exec;
    rewrite (nonempty_nil _ Hv), run_body, Hb;
    unfold bind at 1; unfold offers_findOne, read_db, bind, ret, incoming;
    cbn [db]; rewrite Hf; unfold or_field; rewrite ?Hn; cbn;
    destruct d; auto.
Qed.

Lemma offer_webhooks_when_absent_witness :
  let req :=
    Sample.request ""
      [("_idOffer", JStr "no-such-offer"); ("_lowerLimitFn", JStr "0.5")] [] in
  let r := serve Sample.env 12 PUT_webhook_offer_min_price req Sample.one_order in
  response r = Some (400, message no_offer_found)
  /\ writes (snd r) = [updateOne "offers" None].
Proof.
  intros req r.
  destruct (offer_webhooks_when_absent Sample.env 12
              PUT_webhook_offer_min_price req Sample.one_order "_lowerLimitFn")
    as (H1 & H2 & _); try reflexivity.
  split; assumption.
Defined.

(** C8 as stated fails for the max-price webhook: it returns after "No
    offer found", no update is issued. *)
Lemma max_price_returns_when_absent :
  let req :=
    Sample.request ""
      [("_idOffer", JStr "no-such-offer"); ("_upperMaxFn", JStr "2")] [] in
  let r := serve Sample.env 12 PUT_webhook_offer_max_price req Sample.one_order in
  find (by_offerId req) (offers Sample.one_order) = None
  /\ response r = Some (400, message no_offer_found)
  /\ fst r = Return tt
  /\ writes (snd r) = [].
Proof.
  repeat split.
Qed.

(* ===================================================================== *)
(** ** The validators *)
(* ===================================================================== *)

Lemma run_chain_flat_map req c :
  run_chain req c =
  flat_map (run_validator req (chain_location c) (chain_path c)
              (select req (chain_location c) (chain_path c)))
           (chain_stack c).
Proof. unfold run_chain. now rewrite fold_left_push. Qed.

Lemma run_app a b req : run (a ++ b) req = run b (run a req).
Proof. unfold run. apply fold_left_app. Qed.

Lemma select_same a b l path :
  same_sections a b -> select a l path = select b l path.
Proof.
  intros (Hb & Hq & Hp). unfold select, section.
  destruct l; now rewrite ?Hb, ?Hq, ?Hp.
Qed.

Lemma run_chain_same c a b :
  (forall item f, In item (chain_stack c) -> fst item = custom f -> f a = f b) ->
  same_sections a b ->
  run_chain a c = run_chain b c.
Proof.
  intros Hf Hs. rewrite !run_chain_flat_map.
  rewrite (select_same a b _ _ Hs).
  induction (chain_stack c) as [|[v m] l IH]; [reflexivity|].
  simpl. f_equal.
  - destruct v; try reflexivity.
    rewrite (Hf (custom f, m) f); [reflexivity | now left | reflexivity].
  - apply IH. intros item f Hin. apply Hf. now right.
Qed.

(** The errors the chains leave: those of each chain in turn, every chain
    running on the request as it came. *)
Lemma run_contexts chains : forall req,
  reads_sections chains ->
  contexts (run chains req) = contexts req ++ flat_map (run_chain req) chains.
Proof.
  induction chains as [|c chains IH]; intros req Hr.
  - simpl. now rewrite app_nil_r.
  - change (run (c :: chains) req)
      with (run chains
              (mkRequest (req_body req) (req_query req) (req_params req)
                 (locals_userId req) (contexts req ++ run_chain req c))).
    set (req1 := mkRequest _ _ _ _ _).
    assert (Hr' : reads_sections chains).
    { intros c' item f Hc. apply (Hr c' item f). now right. }
    rewrite (IH req1 Hr'). subst req1. cbn [contexts flat_map].
    rewrite <- app_assoc. f_equal. f_equal.
    clear IH. induction chains as [|c' chains IH]; [reflexivity|].
    simpl. f_equal.
    + apply run_chain_same.
      * intros item f Hi Hf. apply (Hr c' item f); auto.
        { right. now left. }
        { repeat split. }
      * repeat split.
    + apply IH.
      * intros c'' item f Hc. apply (Hr c'' item f).
        destruct Hc as [->|Hc]; [now left | right; now right].
      * intros c'' item f Hc. apply (Hr' c'' item f). now right.
Qed.

Lemma flat_map_run_chain req chains :
  flat_map (run_chain req) chains = flat_map (check req) (rules chains).
Proof.
  unfold rules. induction chains as [|c chains IH]; [reflexivity|].
  simpl. rewrite flat_map_app, IH. f_equal.
  rewrite run_chain_flat_map.
  induction (chain_stack c) as [|[v m] l IHl]; [reflexivity|].
  simpl. now rewrite IHl.
Qed.

(** A rule adds its entry when the request breaks it, and nothing
    otherwise, whatever the value. *)
Lemma check_violated req r :
  check req r = if violated req r then [entry req r] else [].
Proof.
  unfold check, violated, entry, run_validator.
  destruct r as [l path v m]. cbn [rule_validator rule_message rule_location rule_path].
  set (val := checked _ _) in *.
  destruct v.
  - destruct (is_string val); reflexivity.
  - destruct (standard notEmpty (toString val)); reflexivity.
  - destruct (standard (matches alternatives) (toString val)); reflexivity.
  - destruct (standard isMongoId (toString val)); reflexivity.
  - destruct (f req); reflexivity.
Qed.

Lemma flat_map_if {A B : Type} (p : A -> bool) (f : A -> B) (l : list A) :
  flat_map (fun x => if p x then [f x] else []) l = map f (filter p l).
Proof.
  induction l as [|x l IH]; [reflexivity|].
  simpl. destruct (p x); simpl; now rewrite IH.
Qed.

Lemma flat_map_ext_In {A B : Type} (f g : A -> list B) (l : list A) :
  (forall x, In x l -> f x = g x) -> flat_map f l = flat_map g l.
Proof.
  induction l as [|x l IH]; [reflexivity|]. intros H. simpl.
  rewrite (H x (or_introl eq_refl)), IH; [reflexivity|].
  intros y Hy. apply H. now right.
Qed.

(** The validators of the repository read nothing but the three sections. *)
Lemma only_fields_reads_sections allowed : reads_sections (only_fields allowed).
Proof.
  intros c item f Hc Hi Hf a b (Hb & Hq & Hp).
  simpl in Hc.
  destruct Hc as [<-|[<-|[<-|[]]]]; simpl in Hi;
    destruct Hi as [<-|[]]; injection Hf as <-; unfold section;
    now rewrite ?Hb, ?Hq, ?Hp.
Qed.

Lemma reads_sections_app a b :
  reads_sections a -> reads_sections b -> reads_sections (a ++ b).
Proof.
  intros Ha Hb c item f Hc. apply in_app_or in Hc.
  destruct Hc; [eapply Ha | eapply Hb]; eauto.
Qed.

Lemma no_custom_reads_sections chains :
  (forall c item f, In c chains -> In item (chain_stack c) -> fst item <> custom f) ->
  reads_sections chains.
Proof.
  intros H c item f Hc Hi Hf. exfalso. exact (H c item f Hc Hi Hf).
Qed.

Lemma createOrderValidator_reads_sections : reads_sections createOrderValidator.
Proof.
  apply reads_sections_app; [|apply only_fields_reads_sections].
  apply no_custom_reads_sections. intros c item f Hc Hi.
  simpl in Hc.
  repeat (destruct Hc as [<-|Hc];
          [simpl in Hi; repeat (destruct Hi as [<-|Hi]; [discriminate|]);
           destruct Hi|]).
  destruct Hc.
Qed.

(** C6: the error array has one entry for every rule the request breaks,
    no more and no fewer, N entries for N broken rules, in the order of
    the rules, each with the field and the section of its rule: all of
    body, query and params in one array, not the first error only.  This
    is so whatever the values are, arrays included: a rule is run once on
    a value and adds one entry at most.  A route that looks at the result
    of the validation answers 400 with that whole array. *)
Theorem every_violated_rule_is_reported chains req :
  reads_sections chains ->
  contexts req = [] ->
  let reported := validateResult (run chains req) in
  let broken := filter (violated req) (rules chains) in
  reported = map (entry req) broken
  /\ List.length reported = List.length broken
  /\ (forall r, param (entry req r) = rule_path r
                /\ location (entry req r) = rule_location r)
  /\ (forall env now e d,
        inspects_validation e = true ->
        validator env e = chains ->
        broken <> [] ->
        response (serve env now e req d) = Some (400, errors reported)).
Proof.
  intros Hr Hc reported broken.
  assert (H : reported = map (entry req) broken).
  { subst reported broken.
    rewrite validateResult_contexts, (run_contexts chains req Hr), Hc.
    cbn [app]. rewrite flat_map_run_chain.
    rewrite <- flat_map_if. apply flat_map_ext_In.
    intros r Hin. apply check_violated. }
  split; [exact H|]. split; [|split].
  - rewrite H. apply length_map.
  - intros r. split; reflexivity.
  - intros env now e d He <- Hb.
    apply (validation_gate env now e req d He).
    fold reported. rewrite H. destruct broken; [congruence | discriminate].
Qed.

Lemma every_violated_rule_is_reported_witness :
  let req :=
    mkRequest
      (("orderId", JNum 1234)
         :: Sample.order_body_with "myOrderId" (JArr [JStr ""; JStr ""]))
      [("page", JStr "2")] [] Sample.alice [] in
  map (fun e => (param e, location e, msg e))
    (validateResult (run createOrderValidator req))
  = [ ("orderId", in_body, must_be_string);
      ("hash", in_body, must_be_string);
      ("hash", in_body, must_not_be_empty);
      ("", in_query, "The following fields are not allowed in query: page") ].
Proof.
  intros req.
  destruct (every_violated_rule_is_reported createOrderValidator req)
    as (H & _).
  - exact createOrderValidator_reads_sections.
  - reflexivity.
  - rewrite H. reflexivity.
Defined.

(** The errors of the three allow-list checks. *)
Lemma run_only_fields allowed req :
  contexts (run (only_fields allowed) req)
  = contexts req
    ++ not_allowed in_body (section req in_body)
         (extra_keys allowed (section req in_body))
    ++ not_allowed in_query (section req in_query)
         (extra_keys [] (section req in_query))
    ++ not_allowed in_params (section req in_params)
         (extra_keys [] (section req in_params)).
Proof.
  rewrite (run_contexts _ _ (only_fields_reads_sections allowed)).
  f_equal. unfold only_fields. cbn [flat_map]. rewrite !run_chain_flat_map.
  cbn [chain_stack chain_location chain_path Chain.body Chain.query Chain.param
       flat_map plain select String.eqb].
  unfold plain, run_validator, validateFields, not_allowed, extra_keys,
    message_or.
  cbn [section location_name].
  destruct (filter _ (keys (req_body req)));
    destruct (filter _ (keys (req_query req)));
    destruct (filter _ (keys (strings (req_params req))));
    reflexivity.
Qed.

Lemma section_run chains req l : section (run chains req) l = section req l.
Proof.
  unfold section. destruct l; now rewrite ?run_body, ?run_query, ?run_params.
Qed.

Lemma not_allowed_one l fields extra :
  extra <> [] ->
  not_allowed l fields extra
  = [ mkError (JObj fields)
        ("The following fields are not allowed in " ++ location_name l ++ ": "
         ++ String.concat ", " extra)%string "" l ].
Proof. destruct extra; [congruence | reflexivity]. Qed.

(** C7: whatever chains come first, the allow-list checks at the end of a
    validator add, for each of body, query and params, nothing when the
    section has no unexpected field and otherwise one entry, whose message
    lists all the unexpected fields of the section, joined by commas.
    Unexpected fields in the body and in the query at once give two
    entries, one per section, in the same array. *)
Theorem unexpected_fields_one_entry_per_section chains allowed req :
  let reported := validateResult (run (chains ++ only_fields allowed) req) in
  let extra l a := extra_keys a (section req l) in
  let entry_of l a :=
    mkError (JObj (section req l))
      ("The following fields are not allowed in " ++ location_name l ++ ": "
       ++ String.concat ", " (extra l a))%string "" l in
  reported
  = validateResult (run chains req)
    ++ not_allowed in_body (section req in_body) (extra in_body allowed)
    ++ not_allowed in_query (section req in_query) (extra in_query [])
    ++ not_allowed in_params (section req in_params) (extra in_params [])
  /\ (forall l a,
        not_allowed l (section req l) (extra l a)
        = if nonempty (extra l a) then [entry_of l a] else [])
  /\ (extra in_body allowed <> [] -> extra in_query [] <> [] ->
      exists before after,
        reported
        = before ++ [entry_of in_body allowed; entry_of in_query []] ++ after).
Proof.
  intros reported extra entry_of.
  assert (H : reported
              = validateResult (run chains req)
                ++ not_allowed in_body (section req in_body) (extra in_body allowed)
                ++ not_allowed in_query (section req in_query) (extra in_query [])
                ++ not_allowed in_params (section req in_params) (extra in_params [])).
  { subst reported. rewrite !validateResult_contexts, run_app, run_only_fields.
    now rewrite !section_run. }
  split; [exact H|]. split.
  - intros l a. subst entry_of. cbv beta.
    destruct (extra l a) eqn:E; reflexivity.
  - intros Hb Hq. rewrite H.
    rewrite (not_allowed_one _ _ _ Hb), (not_allowed_one _ _ _ Hq).
    exists (validateResult (run chains req)).
    exists (not_allowed in_params (section req in_params) (extra in_params [])).
    reflexivity.
Qed.

Lemma unexpected_fields_one_entry_per_section_witness :
  let req :=
    Sample.request Sample.alice
      (Sample.order_body "myOrderId" ++ [("foo", JNum 1); ("baz", JNull)])
      [("bar", "2")] in
  let in_the_body :=
    mkError (JObj (req_body req))
      "The following fields are not allowed in body: foo, baz" "" in_body in
  let in_the_query :=
    mkError (JObj [("bar", JStr "2")])
      "The following fields are not allowed in query: bar" "" in_query in
  response (serve Sample.env 12 POST_orders req Sample.empty_db)
  = Some (400, errors [in_the_body; in_the_query]).
Proof.
  intros req in_the_body in_the_query.
  destruct (unexpected_fields_one_entry_per_section
              createOrder_fields createOrder_allowed req)
    as (_ & _ & H).
  destruct H as (before & after & H); [discriminate | discriminate |].
  vm_compute. reflexivity.
Defined.

(* ===================================================================== *)
(** ** Completing an order *)
(* ===================================================================== *)

Lemma get_absent key obj : ~ In key (keys obj) -> get key obj = JUndefined.
Proof.
  induction obj as [|[k v] obj IH]; simpl; [reflexivity|]. intros H.
  destruct (String.eqb_spec k key) as [->|_].
  - exfalso. apply H. now left.
  - apply IH. intros Hin. apply H. now right.
Qed.

Lemma extra_keys_nil allowed fields key :
  extra_keys allowed fields = [] -> In key (keys fields) -> In key allowed.
Proof.
  unfold extra_keys. intros He Hin.
  destruct (existsb (String.eqb key) allowed) eqn:E.
  - apply existsb_exists in E. destruct E as (k & Hk & Hkk).
    apply String.eqb_eq in Hkk. now subst.
  - assert (Hf : In key (filter (fun k => negb (existsb (String.eqb k) allowed))
                           (keys fields))).
    { apply filter_In. split; [exact Hin|]. now rewrite E. }
    rewrite He in Hf. destruct Hf.
Qed.

(** What [router.put('/complete')] does once the validation has passed. *)
Lemma put_complete_validated env now req d :
  validateResult (run setOrderCompleteValidator req) = [] ->
  regex_literal (locals_userId req) = true ->
  NoDup (map Order._id (orders d)) ->
  let r := serve env now PUT_orders_complete req d in
  match
    find (fun o => mongo_eq (Order.orderId o) (get "orderId" (req_body req))
                   && regex_i (locals_userId req) (Order.userId o)
                   && String.eqb (Order.status o) ORDER_STATUS.SUCCESS)
      (orders d)
  with
  | Some o =>
      (exists u, response r = Some (200, updated u))
      /\ orders (store r)
         = set_in_orders (Order._id o)
             (set_completion ORDER_STATUS.COMPLETION
                (get "completionHash" (req_body req)))
             (orders d)
  | None => response r = Some (404, message no_order_found) /\ store r = d
  end.
Proof.
  intros Hv Hu Hnd r. subst r. unfold serve. cbn [handler validator].
  unfold put_complete, user_regex.
  rewrite (nonempty_nil _ Hv), run_body, run_userId, Hu.
  unfold bind at 1. unfold ret at 1. unfold incoming.
  unfold bind at 1. unfold orders_findOne, read_db, bind, ret. cbn [db].
  match goal with
  | |- context [find ?p (orders d)] => destruct (find p (orders d)) as [o|] eqn:Ef
  end.
  - apply find_some in Ef. destruct Ef as [Hin _].
    cbn. rewrite (update_first_order o _ _ Hnd Hin).
    cbn. split; [eexists; reflexivity | reflexivity].
  - cbn. destruct d. auto.
Qed.

Lemma user_regex_test env req test :
  caller_test env req = Some test -> user_regex (RegExp env) req = ret test.
Proof.
  unfold user_regex, caller_test. intros Ht.
  destruct (regex_literal (locals_userId req)).
  - now injection Ht as <-.
  - now rewrite Ht.
Qed.

Lemma user_regex_refused env req :
  caller_test env req = None ->
  user_regex (RegExp env) req = throw MongoServerError.
Proof.
  unfold user_regex, caller_test. intros Ht.
  destruct (regex_literal (locals_userId req)); [discriminate Ht|].
  now rewrite Ht.
Qed.

Lemma caller_test_run env chains req :
  caller_test env (run chains req) = caller_test env req.
Proof. unfold caller_test. now rewrite run_userId. Qed.

Lemma order_eqb_status a b :
  order_eqb a b = true -> Order.status a = Order.status b.
Proof.
  unfold order_eqb. intros H.
  repeat (apply andb_prop in H; destruct H as [H ?]).
  match goal with
  | E : String.eqb (Order.status a) (Order.status b) = true |- _ =>
      now apply String.eqb_eq in E
  end.
Qed.

(** C4 (as the code has it): the completion looks for the order with
    [{ userId: { $regex: res.locals.userId, $options: 'i' } }], an
    unanchored pattern, so that it does not ask that the order be the
    caller's.  When the first order with the [orderId] of the body, the
    status [success] and a [userId] that has the caller id in it is the
    order of somebody else, the route answers 200 all the same and that
    order goes to [completion]. *)
Theorem completion_of_an_order_of_another_user env now req d o :
  validateResult (run setOrderCompleteValidator req) = [] ->
  regex_literal (locals_userId req) = true ->
  NoDup (map Order._id (orders d)) ->
  find (Behaviour.complete_filter req) (orders d) = Some o ->
  eqb_ci (Order.userId o) (locals_userId req) = false ->
  let done :=
    set_completion ORDER_STATUS.COMPLETION (get "completionHash" (req_body req)) in
  let r := serve env now PUT_orders_complete req d in
  response r = Some (200, updated (mkUpdate 1 1))
  /\ orders (store r) = set_in_orders (Order._id o) done (orders d)
  /\ In o (orders d)
  /\ Order.status o = ORDER_STATUS.SUCCESS
  /\ Order.status (done o) = ORDER_STATUS.COMPLETION
  /\ contains_ci (locals_userId req) (Order.userId o) = true.
Proof.
  intros Hv Hu Hnd Hf Hne done r.
  pose proof (find_some _ _ Hf) as [Hin Hw].
  unfold Behaviour.complete_filter in Hw.
  apply andb_prop in Hw. destruct Hw as [Hw Hst].
  apply andb_prop in Hw. destruct Hw as [_ Hre].
  apply String.eqb_eq in Hst.
  assert (Hch : order_eqb (done o) o = false).
  { destruct (order_eqb (done o) o) eqn:E; [|reflexivity].
    apply order_eqb_status in E. cbn in E. rewrite Hst in E. discriminate E. }
  subst r. unfold serve. cbn [handler validator].
  unfold put_complete, user_regex.
  rewrite (nonempty_nil _ Hv), run_body, run_userId, Hu.
  unfold bind at 1. unfold ret at 1. unfold incoming.
  unfold bind at 1. unfold orders_findOne, read_db, bind, ret. cbn [db].
  change (find _ (orders d)) with (find (Behaviour.complete_filter req) (orders d)).
  rewrite Hf. cbn. rewrite (update_first_order o _ _ Hnd Hin).
  fold done. rewrite Hch. cbn.
  repeat split; assumption.
Qed.

Lemma completion_of_an_order_of_another_user_witness :
  let req := Sample.request Sample.mallory [("orderId", JStr "trade-1")] [] in
  let r := serve Sample.env 13 PUT_orders_complete req Sample.settled_order in
  map (fun o => (Order.orderId o, Order.userId o, Order.status o))
    (orders Sample.settled_order)
  = [(JStr "trade-1", Sample.alice, ORDER_STATUS.SUCCESS)]
  /\ eqb_ci Sample.alice Sample.mallory = false
  /\ response r = Some (200, updated (mkUpdate 1 1))
  /\ map (fun o => (Order.userId o, Order.status o)) (orders (store r))
     = [(Sample.alice, ORDER_STATUS.COMPLETION)].
Proof.
  intros req r. split; [reflexivity|]. split; [reflexivity|].
  set (o := set_order_success (JStr "trade-1")
              (newDocument 10
                 (Sample.request Sample.alice (Sample.order_body "myOrderId") [])
                 0)).
  destruct (completion_of_an_order_of_another_user Sample.env 13 req
              Sample.settled_order o)
    as (H1 & H2 & _).
  - reflexivity.
  - reflexivity.
  - change (NoDup [0%nat]). repeat constructor. intros [].
  - reflexivity.
  - reflexivity.
  - fold r in H1, H2. split; [exact H1|]. rewrite H2. vm_compute. reflexivity.
Defined.

(** X20: what the handler of [PUT /orders/complete] does with a request
    the validation found nothing in, when the store takes the caller id as
    a pattern and its orders have distinct ids.  It looks for the first
    order with the [orderId] of the body, a [userId] the pattern matches
    and the status [success].  When there is one, that order gets the
    status [completion] and the [completionHash] of the body and the
    answer is 200; when there is none the answer is 404 "No order found"
    and the store stays as it is. *)
Theorem completion_of_a_settled_order env now req d test :
  validateResult req = [] ->
  caller_test env req = Some test ->
  NoDup (map Order._id (orders d)) ->
  let wanted := fun o =>
    mongo_eq (Order.orderId o) (get "orderId" (req_body req))
    && test (Order.userId o)
    && String.eqb (Order.status o) ORDER_STATUS.SUCCESS in
  let h := get "completionHash" (req_body req) in
  let r := handler env now PUT_orders_complete req (incoming d) in
  match find wanted (orders d) with
  | Some o =>
      (exists u, response r = Some (200, updated u))
      /\ orders (store r)
         = set_in_orders (Order._id o)
             (set_completion ORDER_STATUS.COMPLETION h) (orders d)
      /\ Order.status (set_completion ORDER_STATUS.COMPLETION h o)
         = ORDER_STATUS.COMPLETION
      /\ Order.completionHash (set_completion ORDER_STATUS.COMPLETION h o)
         = bson h
      /\ In o (orders d) /\ wanted o = true
  | None =>
      response r = Some (404, message no_order_found)
      /\ store r = d
      /\ forall o, In o (orders d) -> wanted o = false
  end.
Proof.
  intros Hv Ht Hnd wanted h r. subst r. cbn [handler].
  unfold put_complete.
  rewrite (nonempty_nil _ Hv), (user_regex_test _ _ _ Ht).
  unfold bind at 1. unfold ret at 1. unfold incoming.
  unfold bind at 1. unfold orders_findOne, read_db, bind, ret. cbn [db].
  change (find _ (orders d)) with (find wanted (orders d)).
  destruct (find wanted (orders d)) as [o|] eqn:Ef.
  - pose proof (find_some _ _ Ef) as [Hin Hw].
    cbn. rewrite (update_first_order o _ _ Hnd Hin).
    cbn. split; [eexists; reflexivity|]. repeat split; assumption.
  - cbn. split; [reflexivity|]. split; [now destruct d|].
    intros o Ho. exact (find_none _ _ Ef o Ho).
Qed.

Lemma completion_of_a_settled_order_witness :
  let req :=
    mkRequest
      [("orderId", JStr "trade-1"); ("completionHash", JStr "0xc0ffee")]
      [] [] Sample.alice [] in
  let r :=
    handler Sample.env 13 PUT_orders_complete req (incoming Sample.settled_order) in
  map (fun o => (Order.orderId o, Order.userId o, Order.status o))
    (orders Sample.settled_order)
  = [(JStr "trade-1", Sample.alice, ORDER_STATUS.SUCCESS)]
  /\ map (fun o => (Order.orderId o, Order.status o, Order.completionHash o))
       (orders (store r))
     = [(JStr "trade-1", ORDER_STATUS.COMPLETION, JStr "0xc0ffee")].
Proof.
  intros req r. split; [reflexivity|].
  assert (Hnd : NoDup (map Order._id (orders Sample.settled_order))).
  { change (NoDup [0%nat]). repeat constructor. intros []. }
  pose proof (completion_of_a_settled_order Sample.env 13 req
                Sample.settled_order (regex_i Sample.alice)
                eq_refl eq_refl Hnd) as H.
  cbv zeta in H. fold r in H.
  set (o := set_order_success (JStr "trade-1")
              (newDocument 10
                 (Sample.request Sample.alice (Sample.order_body "myOrderId") [])
                 0)).
  change (find _ (orders Sample.settled_order)) with (Some o) in H.
  destruct H as (_ & Hs & _). rewrite Hs. vm_compute. reflexivity.
Defined.

(* ===================================================================== *)
(** ** The store keeps its documents apart *)
(* ===================================================================== *)

Lemma keeps_ret {A : Type} (a : A) : keeps_wf (ret a).
Proof. intros w H. exact H. Qed.

Lemma keeps_throw {A : Type} (e : Exn) : keeps_wf (@throw A e).
Proof. intros w H. exact H. Qed.

Lemma keeps_bind {A B : Type} (m : Handler A) (k : A -> Handler B) :
  keeps_wf m -> (forall a, keeps_wf (k a)) -> keeps_wf (bind m k).
Proof.
  intros Hm Hk w H. unfold bind. specialize (Hm w H).
  destruct (m w) as [[a|e] w']; simpl in *.
  - now apply Hk.
  - exact Hm.
Qed.

Lemma keeps_status code : keeps_wf (status code).
Proof. intros w H. exact H. Qed.

Lemma keeps_send b : keeps_wf (send b).
Proof. intros w H. unfold send. destruct (sent (res w)); exact H. Qed.

Lemma keeps_log c : keeps_wf (log c).
Proof. intros w H. exact H. Qed.

Lemma keeps_dispatch e : keeps_wf (dispatch e).
Proof. intros w H. exact H. Qed.

Lemma keeps_read_db : keeps_wf read_db.
Proof. intros w H. exact H. Qed.

Lemma update_first_ids {A : Type} (eqb : A -> A -> bool) (p : A -> bool)
    (set : A -> A) (key : A -> nat) (l : list A) :
  (forall x, key (set x) = key x) ->
  map key (fst (update_first eqb p set l)) = map key l.
Proof.
  intros Hk. induction l as [|x l IH]; [reflexivity|]. simpl.
  destruct (p x); simpl.
  - now rewrite Hk.
  - destruct (update_first eqb p set l) as [l' r]. simpl in *. now rewrite IH.
Qed.

Lemma delete_first_incl {A : Type} (p : A -> bool) (l : list A) :
  forall x, In x (fst (delete_first p l)) -> In x l.
Proof.
  induction l as [|y l IH]; simpl; [auto|]. intros x.
  destruct (p y); simpl.
  - auto.
  - destruct (delete_first p l) as [l' r]. simpl in *. intros [->|H]; auto.
Qed.

Lemma delete_first_NoDup {A : Type} (p : A -> bool) (key : A -> nat) (l : list A) :
  NoDup (map key l) -> NoDup (map key (fst (delete_first p l))).
Proof.
  induction l as [|y l IH]; simpl; [auto|]. intros H.
  inversion H as [|? ? Hy Hl]; subst.
  destruct (p y); simpl; [exact Hl|].
  pose proof (delete_first_incl p l) as Hin.
  destruct (delete_first p l) as [l' r]. simpl in *.
  constructor; [|now apply IH].
  intros Hc. apply Hy. apply in_map_iff in Hc. destruct Hc as (x & <- & Hx).
  apply in_map. now apply Hin.
Qed.

Lemma keeps_orders_insertOne now req : keeps_wf (orders_insertOne (newDocument now req)).
Proof.
  intros w [Hnd Hlt]. unfold orders_insertOne, bind, read_db, with_db, log, ret.
  unfold wf_db. cbn. split.
  - rewrite map_app. cbn. apply NoDup_app.
    + exact Hnd.
    + repeat constructor. intros [].
    + intros i Hi [<-|[]]. apply in_map_iff in Hi. destruct Hi as (o & Ho & Hin).
      rewrite Forall_forall in Hlt. specialize (Hlt o Hin). lia.
  - apply Forall_app. split.
    + eapply Forall_impl; [|exact Hlt]. cbn. intros o Ho. lia.
    + repeat constructor.
Qed.

Lemma keeps_orders_updateOne filter set :
  (forall o, Order._id (set o) = Order._id o) ->
  keeps_wf (orders_updateOne filter set).
Proof.
  intros Hset w [Hnd Hlt].
  unfold orders_updateOne, bind, log, read_db, with_db, ret. cbn.
  destruct filter as [q|]; cbn; [|now split].
  unfold wf_db.
  pose proof (update_first_ids order_eqb (order_filter q) set Order._id
                (orders (db w)) Hset) as Hids.
  destruct (update_first order_eqb (order_filter q) set (orders (db w)))
    as [l r]. cbn in *. split.
  - now rewrite Hids.
  - rewrite Forall_forall in *. intros o Ho.
    assert (Hi : In (Order._id o) (map Order._id (orders (db w)))).
    { rewrite <- Hids. now apply in_map. }
    apply in_map_iff in Hi. destruct Hi as (o' & Hid & Ho').
    rewrite <- Hid. now apply Hlt.
Qed.

Lemma keeps_offers_updateOne filter set : keeps_wf (offers_updateOne filter set).
Proof.
  intros w H.
  unfold offers_updateOne, bind, log, read_db, with_db, ret. cbn.
  destruct filter as [q|]; cbn; [|exact H].
  destruct (update_first offer_eqb (offer_filter q) set (offers (db w))).
  exact H.
Qed.

Lemma keeps_orders_deleteOne filter : keeps_wf (orders_deleteOne filter).
Proof.
  intros w [Hnd Hlt].
  unfold orders_deleteOne, bind, log, read_db, with_db, ret. cbn.
  pose proof (delete_first_NoDup (order_filter filter) Order._id
                (orders (db w)) Hnd) as Hnd'.
  pose proof (delete_first_incl (order_filter filter) (orders (db w))) as Hin.
  destruct (delete_first (order_filter filter) (orders (db w))) as [l r].
  unfold wf_db. cbn in *. split; [exact Hnd'|].
  rewrite Forall_forall in *. intros o Ho. apply Hlt. now apply Hin.
Qed.

Lemma keeps_orders_findOne p : keeps_wf (orders_findOne p).
Proof. intros w H. exact H. Qed.

Lemma keeps_offers_findOne p : keeps_wf (offers_findOne p).
Proof. intros w H. exact H. Qed.

Lemma keeps_user_regex re req : keeps_wf (user_regex re req).
Proof.
  intros w H. unfold user_regex.
  destruct (regex_literal _); [exact H|]. destruct (re _); exact H.
Qed.

Lemma keeps_number_or_0 q : keeps_wf (number_or_0 q).
Proof. intros w H. unfold number_or_0. destruct (to_number_or_0 q); exact H. Qed.

Lemma keeps_isActiveOffers_filter req : keeps_wf (isActiveOffers_filter req).
Proof.
  intros w H. unfold isActiveOffers_filter, JSON_parse_truthy.
  destruct (lookup _ _) as [[| | | |text| |]|]; try exact H.
  destruct (String.eqb text ""); [exact H|].
  unfold bind. destruct (JSON_parse text); exact H.
Qed.

Lemma keeps_JSON_parse_truthy text : keeps_wf (JSON_parse_truthy text).
Proof.
  intros w H. unfold JSON_parse_truthy. destruct (JSON_parse text); exact H.
Qed.

Lemma keeps_or_field v offer field : keeps_wf (or_field v offer field).
Proof.
  intros w H. unfold or_field. destruct (nullish v), offer; exact H.
Qed.

Lemma keeps_notify r m t i : keeps_wf (notify r m t i).
Proof.
  intros w H. unfold notify. destruct (0 <? modifiedCount r)%nat; exact H.
Qed.

Ltac keeps :=
  repeat first
    [ apply keeps_orders_insertOne | apply keeps_offers_updateOne
    | apply keeps_orders_deleteOne
    | apply keeps_orders_updateOne; intros ?; reflexivity
    | apply keeps_orders_findOne | apply keeps_offers_findOne
    | apply keeps_user_regex | apply keeps_number_or_0
    | apply keeps_isActiveOffers_filter
    | apply keeps_JSON_parse_truthy | apply keeps_or_field | apply keeps_notify
    | apply keeps_ret | apply keeps_throw | apply keeps_status
    | apply keeps_send | apply keeps_log | apply keeps_dispatch
    | apply keeps_read_db
    | match goal with
      | |- keeps_wf (if ?b then _ else _) => destruct b
      | |- keeps_wf (match ?x with _ => _ end) => destruct x
      end
    | apply keeps_bind; [|intros ?] ].

(** Whatever the route and the request, the orders of the store keep
    distinct ids, all below the next id to give: the hypothesis the
    statements about [updateOne] make on the store holds of every store the
    routes can build. *)
Theorem serve_keeps_wf env now e req d :
  wf_db d -> wf_db (store (serve env now e req d)).
Proof.
  intros H. unfold serve, store.
  assert (Hk : keeps_wf (handler env now e (run (validator env e) req))).
  { destruct e; cbn [handler]; exec; keeps. }
  exact (Hk (incoming d) H).
Qed.

Lemma empty_db_wf : wf_db Sample.empty_db.
Proof. split; constructor. Qed.

(* ===================================================================== *)
(** ** The tests of the orders route, run on the model *)
(* ===================================================================== *)

(** 'Should POST a new order' *)
Example test_POST_a_new_order :
  response (serve Sample.env 10 POST_orders
              (Sample.request Sample.alice (Sample.order_body "myOrderId") [])
              Sample.empty_db)
  = Some (200, inserted (mkInsert true 0)).
Proof. reflexivity. Qed.

(** 'Should return a 400 if orderId is not a string' *)
Example test_orderId_is_not_a_string :
  response (serve Sample.env 10 POST_orders
              (Sample.request Sample.alice
                 (("orderId", JNum 1234) :: Sample.order_body "myOrderId") [])
              Sample.empty_db)
  = Some (400, errors [mkError (JNum 1234) must_be_string "orderId" in_body]).
Proof. reflexivity. Qed.

(** 'Should return a 400 if an unexpected field is present in query' *)
Example test_unexpected_field_in_query :
  response (serve Sample.env 10 POST_orders
              (Sample.request Sample.alice (Sample.order_body "myOrderId")
                 [("unexpectedField", "unexpectedValue")])
              Sample.empty_db)
  = Some (400,
          errors
            [mkError (JObj [("unexpectedField", JStr "unexpectedValue")])
               "The following fields are not allowed in query: unexpectedField"
               "" in_query]).
Proof. reflexivity. Qed.

(** 'Should delete one order' *)
Example test_delete_one_order :
  let r :=
    serve Sample.env 11 DELETE_orders_orderId
      (mkRequest [] [] [("orderId", "myOrderId")] Sample.alice [])
      Sample.one_order in
  response r = Some (200, deleted (mkDelete 1)) /\ orders (store r) = [].
Proof. split; reflexivity. Qed.

(** 'Should return 404 with message if no order found' *)
Example test_delete_no_order_found :
  response (serve Sample.env 11 DELETE_orders_orderId
              (mkRequest [] [] [("orderId", "myOrderId")] Sample.alice [])
              Sample.empty_db)
  = Some (404, message no_order_found).
Proof. reflexivity. Qed.

(** A field that holds an array: [matches] and [notEmpty] look at its first
    element, and at the empty string for the empty array. *)
Example status_array_stands_for_its_first_element :
  response (serve Sample.env 10 POST_orders
              (Sample.request Sample.alice
                 (("status", JArr [JStr "pending"; JStr "bogus"])
                    :: Sample.order_body "myOrderId") [])
              Sample.empty_db)
  = Some (200, inserted (mkInsert true 0)).
Proof. reflexivity. Qed.

Example empty_status_array_is_refused :
  response (serve Sample.env 10 POST_orders
              (Sample.request Sample.alice
                 (("status", JArr []) :: Sample.order_body "myOrderId") [])
              Sample.empty_db)
  = Some (400,
          errors [mkError (JArr []) createOrder_status_message "status" in_body]).
Proof. reflexivity. Qed.

Example hash_of_two_empty_strings_gets_two_entries :
  response (serve Sample.env 10 POST_orders
              (Sample.request Sample.alice
                 (Sample.order_body_with "myOrderId" (JArr [JStr ""; JStr ""])) [])
              Sample.empty_db)
  = Some (400,
          errors
            [ mkError (JArr [JStr ""; JStr ""]) must_be_string "hash" in_body;
              mkError (JArr [JStr ""; JStr ""]) must_not_be_empty "hash" in_body ]).
Proof. reflexivity. Qed.

(** A completion that passes validation: the order goes from [success] to
    [completion], and the hash recorded is [null]. *)
Example complete_settled_order :
  let r :=
    serve Sample.env 13 PUT_orders_complete
      (Sample.request Sample.alice [("orderId", JStr "trade-1")] [])
      Sample.settled_order in
  response r = Some (200, updated (mkUpdate 1 1))
  /\ map (fun o => (Order.status o, Order.completionHash o)) (orders (store r))
     = [(ORDER_STATUS.COMPLETION, JNull)].
Proof. split; reflexivity. Qed.

(* ===================================================================== *)
(** ** Further properties of the routes *)
(* ===================================================================== *)

Import Behaviour.

Lemma keeps_bind_obs {A B T : Type} (obs : World -> T) (m : Handler A)
    (k : A -> Handler B) :
  keeps obs m -> (forall a, keeps obs (k a)) -> keeps obs (bind m k).
Proof.
  intros Hm Hk w. unfold bind. specialize (Hm w).
  destruct (m w) as [[a|e] w']; simpl in *.
  - now rewrite Hk.
  - exact Hm.
Qed.

(** Steps that touch nothing but the response. *)
Ltac keeps_step :=
  solve [ intros ?w;
          unfold ret, throw, status, send, log, dispatch, read_db, with_db,
            user_regex, number_or_0, JSON_parse_truthy, or_field, notify,
            orders_findOne, offers_findOne, bind;
          cbn;
          repeat match goal with
                 | |- context [match ?x with _ => _ end] => destruct x; cbn
                 end;
          reflexivity ].

Ltac keeps_all :=
  repeat first
    [ keeps_step
    | match goal with
      | |- keeps _ (if ?b then _ else _) => destruct b
      | |- keeps _ (match ?x with _ => _ end) => destruct x
      end
    | apply keeps_bind_obs; [|intros ?] ].

(** X1: on the twelve routes that look at the result of the validation, a
    request with validation errors is answered 400 with the error array,
    the handler returns there, and the store is not written to nor
    anything dispatched. *)
Theorem invalid_request_stops_at_400 env now e req d :
  inspects_validation e = true ->
  validateResult (run (validator env e) req) <> [] ->
  let r := serve env now e req d in
  fst r = Return tt
  /\ response r
     = Some (400, errors (validationResult (run (validator env e) req)))
  /\ store r = d /\ writes (snd r) = [] /\ dispatched (snd r) = [].
Proof.
  intros He Hv r. subst r.
  rewrite <- validateResult_contexts. fold (validateResult (run (validator env e) req)).
  apply nonempty_true in Hv.
  destruct e; try discriminate He; exec; rewrite Hv; cbn; auto.
Qed.

Lemma invalid_request_stops_at_400_witness :
  let req := delete_by_orderId Sample.alice "" in
  let r := serve Sample.env 12 DELETE_orders_orderId req Sample.one_order in
  fst r = Return tt
  /\ response r
     = Some (400, errors [mkError (JStr "") must_not_be_empty "orderId" in_params])
  /\ store r = Sample.one_order.
Proof.
  intros req r.
  destruct (invalid_request_stops_at_400 Sample.env 12 DELETE_orders_orderId req
              Sample.one_order eq_refl) as (H1 & H2 & H3 & _).
  - discriminate.
  - repeat split; assumption.
Defined.

(** X2: the four [GET] routes only read: whatever the request, and also
    when the handler throws, the store is what it was, no write is asked of
    a collection and nothing is dispatched. *)
Theorem reads_never_write env now e req d :
  is_read e = true ->
  let r := serve env now e req d in
  store r = d /\ writes (snd r) = [] /\ dispatched (snd r) = [].
Proof.
  intros He r. subst r. unfold serve, store.
  assert (Hk : keeps (fun w => (db w, writes w, dispatched w))
                 (handler env now e (run (validator env e) req))).
  { destruct e; try discriminate He; cbn [handler]; exec;
      unfold isActiveOffers_filter; keeps_all. }
  specialize (Hk (incoming d)). cbn in Hk.
  injection Hk as H1 H2 H3. auto.
Qed.

Lemma reads_never_write_witness :
  let r :=
    serve Sample.env 12 GET_orders_orderId
      (get_by_orderId Sample.alice "myOrderId") Sample.one_order in
  response r = Some (200, document (JStr "myOrderId"))
  /\ store r = Sample.one_order /\ writes (snd r) = [].
Proof.
  intros r.
  destruct (reads_never_write Sample.env 12 GET_orders_orderId
              (get_by_orderId Sample.alice "myOrderId") Sample.one_order eq_refl)
    as (H1 & H2 & _).
  split; [reflexivity|]. split; assumption.
Defined.

(** X3: the two collections are kept apart and only the webhooks notify:
    a route other than the offer webhooks leaves the offers as they are,
    the offer webhooks leave the orders as they are, and a route of the
    orders router never dispatches anything; and this whatever the request
    and whether or not the handler throws. *)
Theorem routes_keep_to_their_collection env now e req d :
  let r := serve env now e req d in
  (on_offers e = false -> offers (store r) = offers d)
  /\ (on_offers e = true -> orders (store r) = orders d)
  /\ (is_webhook e = false -> dispatched (snd r) = []).
Proof.
  intros r. subst r. unfold serve, store. split; [|split]; intros He.
  - assert (Hk : keeps (fun w => offers (db w))
                   (handler env now e (run (validator env e) req))).
    { destruct e; try discriminate He; cbn [handler]; exec;
        unfold isActiveOffers_filter; keeps_all. }
    exact (Hk (incoming d)).
  - assert (Hk : keeps (fun w => orders (db w))
                   (handler env now e (run (validator env e) req))).
    { destruct e; try discriminate He; cbn [handler]; exec; keeps_all. }
    exact (Hk (incoming d)).
  - assert (Hk : keeps dispatched
                   (handler env now e (run (validator env e) req))).
    { destruct e; try discriminate He; cbn [handler]; exec;
        unfold isActiveOffers_filter; keeps_all. }
    exact (Hk (incoming d)).
Qed.

Lemma routes_keep_to_their_collection_witness :
  let req :=
    Sample.request ""
      [("_idTrade", JStr "trade-1"); ("_grinderyTransactionHash", JStr "myhash")]
      [] in
  let r := serve Sample.env 12 PUT_webhook_order req Sample.one_order in
  offers (store r) = offers Sample.one_order
  /\ dispatched (snd r) = [mkEvent "success" "order" (JStr "trade-1")].
Proof.
  intros req r.
  destruct (routes_keep_to_their_collection Sample.env 12 PUT_webhook_order req
              Sample.one_order) as (H & _ & _).
  split; [exact (H eq_refl) | reflexivity].
Defined.

Lemma keeps_order_ids_updateOne filter set :
  (forall o, Order._id (set o) = Order._id o) ->
  keeps (fun w => map Order._id (orders (db w))) (orders_updateOne filter set).
Proof.
  intros Hset w.
  unfold orders_updateOne, bind, log, read_db, with_db, ret, throw. cbn.
  destruct filter as [q|]; cbn; [|reflexivity].
  pose proof (update_first_ids order_eqb (order_filter q) set Order._id
                (orders (db w)) Hset) as Hids.
  destruct (update_first order_eqb (order_filter q) set (orders (db w))).
  exact Hids.
Qed.

Lemma keeps_offer_ids_updateOne filter set :
  (forall f, Offer._id (set f) = Offer._id f) ->
  keeps (fun w => map Offer._id (offers (db w))) (offers_updateOne filter set).
Proof.
  intros Hset w.
  unfold offers_updateOne, bind, log, read_db, with_db, ret, throw. cbn.
  destruct filter as [q|]; cbn; [|reflexivity].
  pose proof (update_first_ids offer_eqb (offer_filter q) set Offer._id
                (offers (db w)) Hset) as Hids.
  destruct (update_first offer_eqb (offer_filter q) set (offers (db w))).
  exact Hids.
Qed.

Ltac keeps_ids :=
  repeat first
    [ apply keeps_order_ids_updateOne; intros ?; reflexivity
    | apply keeps_offer_ids_updateOne; intros ?; reflexivity
    | keeps_step
    | match goal with
      | |- keeps _ (if ?b then _ else _) => destruct b
      | |- keeps _ (match ?x with _ => _ end) => destruct x
      end
    | apply keeps_bind_obs; [|intros ?] ].

(** X4: among the fourteen routes of the orders router and of the webhook
    router, documents come and go by two only.  None of the fourteen adds
    or removes an offer; none but [POST /orders] and
    [DELETE /orders/:orderId] adds or removes an order: the updates of the
    completion and of the webhooks change documents in place and never
    their [_id].  (The routes of the offers router are not among them.) *)
Theorem updates_change_documents_in_place env now e req d :
  let r := serve env now e req d in
  map Offer._id (offers (store r)) = map Offer._id (offers d)
  /\ (e <> POST_orders -> e <> DELETE_orders_orderId ->
      map Order._id (orders (store r)) = map Order._id (orders d)).
Proof.
  intros r. subst r. unfold serve, store. split.
  - assert (Hk : keeps (fun w => map Offer._id (offers (db w)))
                   (handler env now e (run (validator env e) req))).
    { destruct e; cbn [handler]; exec; unfold isActiveOffers_filter; keeps_ids. }
    exact (Hk (incoming d)).
  - intros Hp Hd.
    assert (Hk : keeps (fun w => map Order._id (orders (db w)))
                   (handler env now e (run (validator env e) req))).
    { destruct e; try congruence; cbn [handler]; exec;
        unfold isActiveOffers_filter; keeps_ids. }
    exact (Hk (incoming d)).
Qed.

Lemma updates_change_documents_in_place_witness :
  let req := Sample.request Sample.alice [("orderId", JStr "trade-1")] [] in
  let r := serve Sample.env 13 PUT_orders_complete req Sample.settled_order in
  map Order.status (orders (store r)) = [ORDER_STATUS.COMPLETION]
  /\ map Order._id (orders (store r)) = [0%nat].
Proof.
  intros req r.
  destruct (updates_change_documents_in_place Sample.env 13 PUT_orders_complete
              req Sample.settled_order) as (_ & H).
  split; [reflexivity|]. apply H; discriminate.
Defined.

Lemma flat_map_nil {A B : Type} (f : A -> list B) (l : list A) :
  flat_map f l = [] -> forall x, In x l -> f x = [].
Proof.
  induction l as [|y l IH]; simpl; [contradiction|].
  intros H x [->|Hx]; apply app_eq_nil in H; destruct H; auto.
Qed.

Lemma string_notEmpty_value req l path val :
  flat_map (run_validator req l path val) string_notEmpty = [] ->
  nonempty_string val.
Proof.
  unfold string_notEmpty. cbn [flat_map]. intros H.
  apply app_eq_nil in H. destruct H as [H1 H2].
  apply app_eq_nil in H2. destruct H2 as [H2 _].
  destruct val; try discriminate H1.
  exists s. split; [reflexivity|]. intros ->. discriminate H2.
Qed.

(** Every chain of a validator whose result is empty added nothing. *)
Lemma validated_chains chains req :
  reads_sections chains ->
  validateResult (run chains req) = [] ->
  forall c, In c chains -> run_chain req c = [].
Proof.
  intros Hr Hv. rewrite validateResult_contexts, (run_contexts _ _ Hr) in Hv.
  apply app_eq_nil in Hv. destruct Hv as [_ Hv].
  now apply flat_map_nil.
Qed.

Lemma createOrderValidator_string req f :
  validateResult (run createOrderValidator req) = [] ->
  In f createOrder_strings ->
  nonempty_string (get f (req_body req)).
Proof.
  intros Hv Hf.
  pose proof (validated_chains _ _ createOrderValidator_reads_sections Hv) as Hc.
  assert (H : run_chain req (Chain.body f string_notEmpty) = []).
  { apply Hc. unfold createOrder_strings in Hf. simpl in Hf.
    repeat (destruct Hf as [<-|Hf]; [simpl; tauto|]). destruct Hf. }
  rewrite run_chain_flat_map in H. apply string_notEmpty_value in H.
  unfold createOrder_strings in Hf. simpl in Hf.
  repeat (destruct Hf as [<-|Hf]; [exact H|]). destruct Hf.
Qed.

Lemma createOrderValidator_orderId req :
  validateResult (run createOrderValidator req) = [] ->
  is_string (get "orderId" (req_body req)) = true.
Proof.
  intros Hv.
  pose proof (validated_chains _ _ createOrderValidator_reads_sections Hv
                (Chain.body "orderId" [withMessage isString must_be_string]))
    as H.
  rewrite run_chain_flat_map in H. cbn in H.
  destruct (is_string (get "orderId" (req_body req))); [reflexivity|].
  discriminate H. simpl. tauto.
Qed.

Lemma extra_keys_strings_nil q : extra_keys [] (strings q) = [] -> q = [].
Proof. destruct q; [reflexivity | discriminate]. Qed.

Lemma extra_keys_none (q : JObject) : extra_keys [] q = [] -> q = [].
Proof. destruct q; [reflexivity | discriminate]. Qed.

(** What the allow-list of [createOrderValidator] leaves through. *)
Lemma createOrderValidator_sections req :
  validateResult (run createOrderValidator req) = [] ->
  (forall k, In k (keys (req_body req)) -> In k createOrder_allowed)
  /\ req_query req = [] /\ req_params req = [].
Proof.
  intros Hv. unfold createOrderValidator in Hv.
  rewrite validateResult_contexts, run_app, run_only_fields in Hv.
  apply app_eq_nil in Hv. destruct Hv as [_ Hv].
  apply app_eq_nil in Hv. destruct Hv as [Hb Hv].
  apply app_eq_nil in Hv. destruct Hv as [Hq Hp].
  rewrite section_run in Hb, Hq, Hp. cbn [section] in Hb, Hq, Hp.
  split; [|split].
  - intros k Hk.
    destruct (extra_keys createOrder_allowed (req_body req)) eqn:E;
      [|discriminate Hb].
    exact (extra_keys_nil _ _ k E Hk).
  - destruct (extra_keys [] (req_query req)) eqn:E; [|discriminate Hq].
    now apply extra_keys_none.
  - destruct (extra_keys [] (strings (req_params req))) eqn:E; [|discriminate Hp].
    now apply extra_keys_strings_nil.
Qed.

(** X5: the order [POST /orders] stores for a request that passed
    validation.  It is added at the end of the collection; its status is
    [pending] whatever status the body carried, it is not complete, it
    belongs to the caller and is dated by the server; it has no
    [completionHash]; its order id is a string and its seven other fields
    are strings that are not empty. *)
Theorem created_order_is_pending_and_typed env now req d :
  validateResult (run createOrderValidator req) = [] ->
  let r := serve env now POST_orders req d in
  exists doc,
    orders (store r) = orders d ++ [doc]
    /\ Order._id doc = next_id d
    /\ Order.status doc = ORDER_STATUS.PENDING
    /\ Order.isComplete doc = false
    /\ Order.userId doc = locals_userId req
    /\ Order.date doc = now
    /\ Order.completionHash doc = JUndefined
    /\ is_string (Order.orderId doc) = true
    /\ nonempty_string (Order.amountTokenDeposit doc)
    /\ nonempty_string (Order.addressTokenDeposit doc)
    /\ nonempty_string (Order.chainIdTokenDeposit doc)
    /\ nonempty_string (Order.destAddr doc)
    /\ nonempty_string (Order.amountTokenOffer doc)
    /\ nonempty_string (Order.offerId doc)
    /\ nonempty_string (Order.hash doc).
Proof.
  intros Hv r.
  destruct (POST_orders_validated env now req d Hv) as [_ Hs]. fold r in Hs.
  exists (newDocument now req (next_id d)).
  split; [exact Hs|].
  repeat (split; [reflexivity|]).
  split.
  { cbn [newDocument Order.completionHash]. apply get_absent. intros Hin.
    apply (proj1 (createOrderValidator_sections req Hv)) in Hin.
    simpl in Hin. repeat (destruct Hin as [Hin|Hin]; [discriminate Hin|]).
    destruct Hin. }
  split; [exact (createOrderValidator_orderId req Hv)|].
  repeat split; apply (createOrderValidator_string req _ Hv); simpl; tauto.
Qed.

Lemma created_order_is_pending_and_typed_witness :
  let req :=
    Sample.request Sample.alice
      [ ("status", JStr "success"); ("orderId", JStr "myOrderId");
        ("amountTokenDeposit", JStr "0.34"); ("addressTokenDeposit", JStr "0x0");
        ("chainIdTokenDeposit", JStr "13434"); ("destAddr", JStr "mydestAddr");
        ("amountTokenOffer", JStr "5433"); ("offerId", JStr "myOfferId");
        ("hash", JStr "myhash") ] [] in
  let r := serve Sample.env 10 POST_orders req Sample.empty_db in
  map Order.status (orders (store r)) = [ORDER_STATUS.PENDING].
Proof.
  intros req r.
  destruct (created_order_is_pending_and_typed Sample.env 10 req Sample.empty_db)
    as (doc & Hs & _ & Hst & _).
  - reflexivity.
  - fold r in Hs. rewrite Hs. cbn. now rewrite Hst.
Defined.

Lemma prefix_ci_refl s : prefix_ci s s = true.
Proof.
  induction s as [|c s IH]; [reflexivity|]. simpl.
  unfold ascii_eqb_ci. now rewrite Ascii.eqb_refl.
Qed.

Lemma regex_i_refl s : regex_i s s = true.
Proof. unfold regex_i. destruct s; simpl; [reflexivity|].
  unfold ascii_eqb_ci. now rewrite Ascii.eqb_refl, prefix_ci_refl.
Qed.

Lemma find_app_last {A : Type} (p : A -> bool) (l : list A) (x : A) :
  (forall y, In y l -> p y = false) -> p x = true ->
  find p (l ++ [x]) = Some x.
Proof.
  induction l as [|y l IH]; simpl; intros Hl Hx.
  - now rewrite Hx.
  - rewrite (Hl y (or_introl eq_refl)). apply IH; auto.
Qed.

Lemma filter_nil_false {A : Type} (p : A -> bool) (l : list A) :
  filter p l = [] -> forall y, In y l -> p y = false.
Proof.
  intros H y Hy. destruct (p y) eqn:E; [|reflexivity].
  assert (Hin : In y (filter p l)) by (apply filter_In; auto).
  rewrite H in Hin. destruct Hin.
Qed.


Lemma routes_keep_offers_POST env now req d :
  offers (store (serve env now POST_orders req d)) = offers d.
Proof.
  unfold serve, store.
  assert (Hk : keeps (fun w => offers (db w))
                 (handler env now POST_orders (run (validator env POST_orders) req))).
  { cbn [handler]; exec; keeps_all. }
  exact (Hk (incoming d)).
Qed.

(** What [router.get('/orderId')] answers once the validation has passed. *)
Lemma get_orderId_validated env now req d :
  validateResult (run getOrderByOrderIdValidator req) = [] ->
  regex_literal (locals_userId req) = true ->
  let r := serve env now GET_orders_orderId req d in
  response r
  = Some (200,
          document
            (getOneOrderWithOffer env (offers d)
               (find (fun o => regex_i (locals_userId req) (Order.userId o)
                               && mongo_eq (Order.orderId o)
                                    (query_value req "orderId"))
                  (orders d)))).
Proof.
  intros Hv Hu r. subst r. unfold serve. cbn [handler validator].
  unfold get_orderId, user_regex, query_value.
  rewrite (nonempty_nil _ Hv), run_userId, run_query, Hu. reflexivity.
Qed.

(** X6: an order that was created is found again, when the caller id has
    no special character of regular expressions.  After a creation that
    passed validation, with a non-empty order id no order of the store
    had, the caller's [GET /orders/orderId] for that id is answered 200
    with the document just stored. *)
Theorem created_order_is_found env now later req d x :
  validateResult (run createOrderValidator req) = [] ->
  regex_literal (locals_userId req) = true ->
  get "orderId" (req_body req) = JStr x ->
  x <> "" ->
  with_orderId (JStr x) d = [] ->
  let created := serve env now POST_orders req d in
  let r :=
    serve env later GET_orders_orderId
      (get_by_orderId (locals_userId req) x) (store created) in
  response created = Some (200, inserted (mkInsert true (next_id d)))
  /\ response r
     = Some (200,
             document
               (getOneOrderWithOffer env (offers d)
                  (Some (newDocument now req (next_id d))))).
Proof.
  intros Hv Hu Hx Hne Hno created r.
  destruct (POST_orders_validated env now req d Hv) as [Hr Hs].
  fold created in Hr, Hs. split.
  - rewrite Hr, Hx.
    unfold with_orderId in Hno.
    destruct (find (fun o => mongo_eq (Order.orderId o) (JStr x)) (orders d))
      eqn:Ef; [|reflexivity].
    apply find_some in Ef. destruct Ef as [Hin Hm].
    now rewrite (filter_nil_false _ _ Hno _ Hin) in Hm.
  - subst r.
    assert (Hg : validateResult
                   (run getOrderByOrderIdValidator
                      (get_by_orderId (locals_userId req) x)) = []).
    { rewrite validateResult_contexts. cbn.
      apply String.eqb_neq in Hne. now rewrite Hne. }
    rewrite (get_orderId_validated env later _ _ Hg Hu).
    pose proof (routes_keep_offers_POST env now req d) as Ho.
    fold created in Ho. rewrite Ho, Hs.
    cbn [get_by_orderId locals_userId query_value req_query lookup String.eqb
         Ascii.eqb Bool.eqb].
    rewrite find_app_last; [reflexivity| |].
    + intros y Hy. unfold with_orderId in Hno.
      rewrite (filter_nil_false _ _ Hno y Hy). apply andb_false_r.
    + change (Order.userId (newDocument now req (next_id d)))
        with (locals_userId req).
      change (Order.orderId (newDocument now req (next_id d)))
        with (get "orderId" (req_body req)).
      rewrite regex_i_refl, Hx. unfold mongo_eq. cbn. now rewrite String.eqb_refl.
Qed.

Lemma created_order_is_found_witness :
  let req := Sample.request Sample.alice (Sample.order_body "myOrderId") [] in
  let created := serve Sample.env 10 POST_orders req Sample.empty_db in
  response (serve Sample.env 11 GET_orders_orderId
              (get_by_orderId Sample.alice "myOrderId") (store created))
  = Some (200, document (JStr "myOrderId")).
Proof.
  intros req created.
  destruct (created_order_is_found Sample.env 10 11 req Sample.empty_db
              "myOrderId") as [_ H];
    [reflexivity | reflexivity | reflexivity | discriminate | reflexivity
    | exact H].
Defined.

Lemma remove_order_absent i l :
  ~ In i (map Order._id l) -> remove_order i l = l.
Proof.
  unfold remove_order. induction l as [|x l IH]; simpl; [reflexivity|].
  intros H. destruct (Nat.eqb_spec (Order._id x) i) as [E|E]; simpl.
  - exfalso. apply H. now left.
  - f_equal. apply IH. intros Hin. apply H. now right.
Qed.

(** With distinct ids, a document of the store used as the filter of
    [deleteOne] removes that document and no other. *)
Lemma delete_first_order o l :
  NoDup (map Order._id l) -> In o l ->
  delete_first (order_filter o) l = (remove_order (Order._id o) l, mkDelete 1).
Proof.
  induction l as [|x l IH]; simpl; [contradiction|].
  intros Hnd Hin. inversion Hnd as [|? ? Hx Hnd']; subst.
  destruct Hin as [->|Hin].
  - rewrite order_filter_refl. unfold remove_order. simpl.
    rewrite Nat.eqb_refl. simpl.
    fold (remove_order (Order._id o) l). now rewrite remove_order_absent.
  - assert (Hne : Order._id x <> Order._id o).
    { intros E. apply Hx. rewrite E. now apply in_map. }
    rewrite (order_filter_id _ _ Hne), (IH Hnd' Hin).
    unfold remove_order. simpl.
    apply Nat.eqb_neq in Hne. now rewrite Hne.
Qed.

(** What [router.delete('/:orderId')] does once the validation has passed. *)
Lemma delete_validated env now req d :
  validateResult (run deleteOrderValidator req) = [] ->
  regex_literal (locals_userId req) = true ->
  NoDup (map Order._id (orders d)) ->
  let r := serve env now DELETE_orders_orderId req d in
  match find (delete_filter req) (orders d) with
  | Some o =>
      response r = Some (200, deleted (mkDelete 1))
      /\ orders (store r) = remove_order (Order._id o) (orders d)
      /\ writes (snd r) = [deleteOne "orders" (Order._id o)]
  | None =>
      response r = Some (404, message no_order_found)
      /\ store r = d /\ writes (snd r) = []
  end.
Proof.
  intros Hv Hu Hnd r. subst r. unfold serve. cbn [handler validator].
  unfold delete, user_regex, param_value.
  rewrite (nonempty_nil _ Hv), run_userId, run_params, Hu.
  unfold bind at 1. unfold ret at 1. unfold incoming.
  unfold bind at 1. unfold orders_findOne, read_db, bind, ret. cbn [db].
  change (find _ (orders d)) with (find (delete_filter req) (orders d)).
  destruct (find (delete_filter req) (orders d)) as [o|] eqn:Ef.
  - apply find_some in Ef. destruct Ef as [Hin _].
    cbn. rewrite (delete_first_order o _ Hnd Hin). cbn. auto.
  - cbn. destruct d. auto.
Qed.

(** X7: [DELETE /orders/:orderId] is scoped to the caller.  Once the
    validation has passed, it removes one order, the first whose order id
    is the one of the path and whose [userId] the caller's id matches, and
    answers 200 with a count of 1; when there is none it answers 404 "No
    order found" and asks nothing of the store.  An order whose [userId]
    the caller's id does not match is never removed. *)
Theorem delete_is_scoped_to_the_caller env now req d :
  validateResult (run deleteOrderValidator req) = [] ->
  regex_literal (locals_userId req) = true ->
  NoDup (map Order._id (orders d)) ->
  let r := serve env now DELETE_orders_orderId req d in
  match find (delete_filter req) (orders d) with
  | Some o =>
      response r = Some (200, deleted (mkDelete 1))
      /\ orders (store r) = remove_order (Order._id o) (orders d)
  | None =>
      response r = Some (404, message no_order_found)
      /\ store r = d /\ writes (snd r) = []
  end
  /\ forall x, In x (orders d) ->
               contains_ci (locals_userId req) (Order.userId x) = false ->
               In x (orders (store r)).
Proof.
  intros Hv Hu Hnd r.
  pose proof (delete_validated env now req d Hv Hu Hnd) as H. fold r in H.
  destruct (find (delete_filter req) (orders d)) as [o|] eqn:Ef.
  - destruct H as (Hr & Hs & _). split; [auto|].
    intros x Hx Hc. rewrite Hs. unfold remove_order. apply filter_In.
    split; [exact Hx|].
    apply find_some in Ef. destruct Ef as [Ho Hf].
    destruct (Nat.eqb_spec (Order._id x) (Order._id o)) as [E|E]; [|reflexivity].
    exfalso. unfold delete_filter in Hf. apply andb_prop in Hf.
    destruct Hf as [_ Hf]. unfold regex_i in Hf.
    assert (x = o); [|subst; congruence].
    clear - Hnd Hx Ho E. induction (orders d) as [|y l IH]; [destruct Hx|].
    simpl in Hnd. inversion Hnd as [|? ? Hy Hl]; subst.
    destruct Hx as [->|Hx], Ho as [->|Ho]; auto.
    + exfalso. apply Hy. rewrite E. now apply in_map.
    + exfalso. apply Hy. rewrite <- E. now apply in_map.
  - destruct H as (Hr & Hs & Hw). split; [auto|].
    intros x Hx _. now rewrite Hs.
Qed.

Lemma delete_is_scoped_to_the_caller_witness :
  let r :=
    serve Sample.env 12 DELETE_orders_orderId
      (delete_by_orderId "0xB0B" "myOrderId") Sample.one_order in
  response r = Some (404, message no_order_found)
  /\ orders (store r) = orders Sample.one_order.
Proof.
  intros r.
  destruct (delete_is_scoped_to_the_caller Sample.env 12
              (delete_by_orderId "0xB0B" "myOrderId") Sample.one_order)
    as [H _].
  - reflexivity.
  - reflexivity.
  - repeat constructor. simpl. tauto.
  - fold r in H. clearbody r. cbn in H. destruct H as (Hr & Hs & _).
    split; [exact Hr | now rewrite Hs].
Defined.

(** X8: creation and deletion undo each other, when the caller id has no
    special character of regular expressions and the orders of the store
    have distinct ids below the next id.  After a creation that passed
    validation, with a non-empty order id no order of the store had, the
    caller's [DELETE] of that id is answered 200 with a count of 1 and the
    orders of the store are again what they were before the creation. *)
Theorem created_order_can_be_deleted env now later req d x :
  validateResult (run createOrderValidator req) = [] ->
  regex_literal (locals_userId req) = true ->
  get "orderId" (req_body req) = JStr x ->
  x <> "" ->
  with_orderId (JStr x) d = [] ->
  wf_db d ->
  let created := serve env now POST_orders req d in
  let r :=
    serve env later DELETE_orders_orderId
      (delete_by_orderId (locals_userId req) x) (store created) in
  response r = Some (200, deleted (mkDelete 1))
  /\ orders (store r) = orders d.
Proof.
  intros Hv Hu Hx Hne Hno Hwf created r.
  destruct (POST_orders_validated env now req d Hv) as [_ Hs].
  fold created in Hs.
  assert (Hd : validateResult
                 (run deleteOrderValidator
                    (delete_by_orderId (locals_userId req) x)) = []).
  { rewrite validateResult_contexts. cbn.
    apply String.eqb_neq in Hne. now rewrite Hne. }
  pose proof (serve_keeps_wf env now POST_orders req d Hwf) as [Hnd _].
  fold created in Hnd.
  pose proof (delete_validated env later _ (store created) Hd Hu Hnd) as H.
  fold r in H. rewrite Hs in H.
  rewrite (find_app_last _ _ (newDocument now req (next_id d))) in H.
  - destruct H as (Hr & Ho & _). split; [exact Hr|].
    rewrite Ho. unfold remove_order. rewrite filter_app. cbn.
    rewrite Nat.eqb_refl. cbn. rewrite app_nil_r.
    destruct Hwf as [_ Hlt]. rewrite Forall_forall in Hlt.
    clear - Hlt. induction (orders d) as [|y l IH]; [reflexivity|].
    simpl. destruct (Nat.eqb_spec (Order._id y) (next_id d)) as [E|E].
    + specialize (Hlt y (or_introl eq_refl)). lia.
    + simpl. f_equal. apply IH. intros z Hz. apply Hlt. now right.
  - intros y Hy. unfold delete_filter, param_value. cbn.
    unfold with_orderId in Hno.
    now rewrite (filter_nil_false _ _ Hno y Hy).
  - unfold delete_filter, param_value. cbn.
    change (Order.orderId (newDocument now req (next_id d)))
      with (get "orderId" (req_body req)).
    rewrite regex_i_refl, Hx. unfold mongo_eq. cbn. now rewrite String.eqb_refl.
Qed.

Lemma created_order_can_be_deleted_witness :
  let req := Sample.request Sample.alice (Sample.order_body "myOrderId") [] in
  let created := serve Sample.env 10 POST_orders req Sample.empty_db in
  let r :=
    serve Sample.env 11 DELETE_orders_orderId
      (delete_by_orderId Sample.alice "myOrderId") (store created) in
  response r = Some (200, deleted (mkDelete 1)) /\ orders (store r) = [].
Proof.
  intros req created r.
  apply (created_order_can_be_deleted Sample.env 10 11 req Sample.empty_db
           "myOrderId");
    [reflexivity | reflexivity | reflexivity | discriminate | reflexivity
    | exact empty_db_wf].
Defined.

Lemma set_in_orders_ids i set l :
  (forall o, Order._id (set o) = Order._id o) ->
  map Order._id (set_in_orders i set l) = map Order._id l.
Proof.
  intros Hset. unfold set_in_orders. rewrite map_map. apply map_ext.
  intros x. destruct (Order._id x =? i)%nat; [apply Hset | reflexivity].
Qed.

Lemma NoDup_same_id (l : list Order.t) x y :
  NoDup (map Order._id l) -> In x l -> In y l ->
  Order._id x = Order._id y -> x = y.
Proof.
  induction l as [|z l IH]; [contradiction|].
  simpl. intros Hnd Hx Hy E. inversion Hnd as [|? ? Hz Hl]; subst.
  destruct Hx as [->|Hx], Hy as [->|Hy]; auto.
  - exfalso. apply Hz. rewrite E. now apply in_map.
  - exfalso. apply Hz. rewrite <- E. now apply in_map.
Qed.

Lemma find_none_all {A : Type} (p : A -> bool) (l : list A) :
  (forall x, In x l -> p x = false) -> find p l = None.
Proof.
  induction l as [|y l IH]; [reflexivity|]. intros H. simpl.
  rewrite (H y (or_introl eq_refl)). apply IH. intros x Hx. apply H. now right.
Qed.

(** X9: an order is completed once, when the caller id has no special
    character of regular expressions and the orders of the store have
    distinct ids.  When a completion that passed validation finds its
    order, the one order of the store the request matches, it answers 200;
    the same request sent again is answered 404 "No order found" and
    changes nothing, the order being no longer in status [success]. *)
Theorem order_is_completed_once env now later req d o :
  validateResult (run setOrderCompleteValidator req) = [] ->
  regex_literal (locals_userId req) = true ->
  NoDup (map Order._id (orders d)) ->
  find (complete_filter req) (orders d) = Some o ->
  (forall x, In x (orders d) -> complete_filter req x = true -> x = o) ->
  let first := serve env now PUT_orders_complete req d in
  let second := serve env later PUT_orders_complete req (store first) in
  (exists u, response first = Some (200, updated u))
  /\ Forall (fun x => Order.status x = ORDER_STATUS.COMPLETION
                      \/ complete_filter req x = false)
       (orders (store first))
  /\ response second = Some (404, message no_order_found)
  /\ store second = store first.
Proof.
  intros Hv Hu Hnd Hf Huniq first second.
  pose proof (put_complete_validated env now req d Hv Hu Hnd) as H1.
  fold first in H1.
  change (find _ (orders d)) with (find (complete_filter req) (orders d)) in H1.
  rewrite Hf in H1. destruct H1 as [Hr Hs].
  assert (Hall : forall x, In x (orders (store first)) ->
                 Order.status x = ORDER_STATUS.COMPLETION
                 /\ complete_filter req x = false
                 \/ complete_filter req x = false).
  { intros x Hx. rewrite Hs in Hx. unfold set_in_orders in Hx.
    apply in_map_iff in Hx. destruct Hx as (y & Hy & Hin).
    destruct (Nat.eqb_spec (Order._id y) (Order._id o)) as [E|E].
    - left. subst x. split; [reflexivity|].
      unfold complete_filter. cbn. now rewrite andb_false_r.
    - right. subst x. destruct (complete_filter req y) eqn:Ec; [|reflexivity].
      exfalso. apply E. now rewrite (Huniq y Hin Ec). }
  split; [exact Hr|]. split.
  { apply Forall_forall. intros x Hx. destruct (Hall x Hx) as [[H _]|H]; auto. }
  assert (Hnd' : NoDup (map Order._id (orders (store first)))).
  { rewrite Hs, set_in_orders_ids; [exact Hnd | reflexivity]. }
  pose proof (put_complete_validated env later req (store first) Hv Hu Hnd') as H2.
  fold second in H2.
  change (find _ (orders (store first)))
    with (find (complete_filter req) (orders (store first))) in H2.
  rewrite find_none_all in H2; [exact H2|].
  intros x Hx. destruct (Hall x Hx) as [[_ H]|H]; exact H.
Qed.

Lemma order_is_completed_once_witness :
  let req := Sample.request Sample.alice [("orderId", JStr "trade-1")] [] in
  let first := serve Sample.env 13 PUT_orders_complete req Sample.settled_order in
  let second := serve Sample.env 14 PUT_orders_complete req (store first) in
  response second = Some (404, message no_order_found)
  /\ map Order.status (orders (store second)) = [ORDER_STATUS.COMPLETION].
Proof.
  intros req first second.
  set (o := set_order_success (JStr "trade-1")
              (newDocument 10
                 (Sample.request Sample.alice (Sample.order_body "myOrderId") [])
                 0)).
  destruct (order_is_completed_once Sample.env 13 14 req Sample.settled_order o)
    as (_ & _ & H3 & H4).
  - reflexivity.
  - reflexivity.
  - change (NoDup [0%nat]). repeat constructor. intros [].
  - reflexivity.
  - intros x Hx _. change (In x [o]) in Hx. destruct Hx as [<-|[]]. reflexivity.
  - fold first second in H3, H4. split; [exact H3|]. rewrite H4. reflexivity.
Defined.

(** X10: the completion touches no other order.  On a store with distinct
    ids and whatever the request, an order that is not in status
    [success] is in the store afterwards as it was; and so is an order
    whose [userId] the caller id, run by the store as a pattern, does not
    match (for a caller id without special characters: an order whose
    [userId] does not contain it). *)
Theorem completion_leaves_other_orders env now req d x :
  NoDup (map Order._id (orders d)) ->
  In x (orders d) ->
  Order.status x <> ORDER_STATUS.SUCCESS
  \/ (forall test, caller_test env req = Some test ->
                   test (Order.userId x) = false) ->
  In x (orders (store (serve env now PUT_orders_complete req d))).
Proof.
  intros Hnd Hx Hnot.
  destruct (validateResult (run setOrderCompleteValidator req)) eqn:Hv.
  2:{ destruct (validation_gate env now PUT_orders_complete req d eq_refl)
        as (_ & Hs & _).
      - cbn [validator]. rewrite Hv. discriminate.
      - now rewrite Hs. }
  unfold serve, store. cbn [handler validator]. unfold put_complete.
  rewrite (nonempty_nil _ Hv), run_body.
  destruct (caller_test env req) as [test|] eqn:Ht.
  2:{ rewrite user_regex_refused by (now rewrite caller_test_run). exact Hx. }
  rewrite (user_regex_test _ _ test) by (now rewrite caller_test_run).
  unfold bind at 1. unfold ret at 1. unfold incoming.
  unfold bind at 1. unfold orders_findOne, read_db, bind, ret. cbn [db].
  match goal with
  | |- context [find ?p (orders d)] => destruct (find p (orders d)) as [o|] eqn:Ef
  end.
  - pose proof (find_some _ _ Ef) as [Ho Hf].
    cbn. rewrite (update_first_order o _ _ Hnd Ho). cbn.
    unfold set_in_orders. apply in_map_iff. exists x. split; [|exact Hx].
    destruct (Nat.eqb_spec (Order._id x) (Order._id o)) as [E|E]; [|reflexivity].
    exfalso.
    assert (x = o) by (eapply NoDup_same_id; eauto). subst x.
    apply andb_prop in Hf. destruct Hf as [Hf Hst].
    apply andb_prop in Hf. destruct Hf as [_ Hr].
    apply String.eqb_eq in Hst.
    destruct Hnot as [Hn|Hn]; [congruence|].
    rewrite (Hn test eq_refl) in Hr. discriminate Hr.
  - cbn. exact Hx.
Qed.

Lemma completion_leaves_other_orders_witness :
  let req := Sample.request Sample.alice [("orderId", JStr "trade-1")] [] in
  let r := serve Sample.env 13 PUT_orders_complete req two_settled in
  map (fun o => (Order.userId o, Order.orderId o, Order.status o))
    (orders two_settled)
  = [ (Sample.alice, JStr "trade-1", ORDER_STATUS.SUCCESS);
      (bob, JStr "trade-1", ORDER_STATUS.SUCCESS) ]
  /\ response r = Some (200, updated (mkUpdate 1 1))
  /\ In bobs_order (orders (store r)).
Proof.
  intros req r. split; [reflexivity|]. split; [reflexivity|].
  apply (completion_leaves_other_orders Sample.env 13 req two_settled bobs_order).
  - change (NoDup [0%nat; 1%nat]). repeat constructor.
    + intros [H|[]]. discriminate H.
    + intros [].
  - set (o := bobs_order). unfold two_settled. apply in_or_app. right.
    change (In o [o]). now left.
  - right. intros test H. injection H as <-. reflexivity.
Defined.


Lemma order_eqb_refl o : order_eqb o o = true.
Proof.
  unfold order_eqb.
  now rewrite Nat.eqb_refl, !jeqb_refl, !String.eqb_refl, Z.eqb_refl,
    Bool.eqb_reflx.
Qed.

Lemma offer_eqb_refl f : offer_eqb f f = true.
Proof.
  unfold offer_eqb. now rewrite Nat.eqb_refl, !jeqb_refl, String.eqb_refl.
Qed.

Lemma find_set_in_orders (p : Order.t -> bool) i set l :
  (forall x, p (set x) = p x) ->
  find p (set_in_orders i set l)
  = option_map (fun x => if (Order._id x =? i)%nat then set x else x) (find p l).
Proof.
  intros Hp. unfold set_in_orders. induction l as [|x l IH]; [reflexivity|].
  cbn [map find]. destruct (Order._id x =? i)%nat eqn:E; rewrite ?Hp;
    destruct (p x); cbn [option_map]; rewrite ?E; auto.
Qed.

Lemma set_in_orders_twice i set l :
  (forall x, Order._id (set x) = Order._id x) ->
  (forall x, set (set x) = set x) ->
  set_in_orders i set (set_in_orders i set l) = set_in_orders i set l.
Proof.
  intros Hid Hset. unfold set_in_orders. rewrite map_map. apply map_ext.
  intros x. destruct (Nat.eqb_spec (Order._id x) i) as [E|E].
  - rewrite Hid. apply Nat.eqb_eq in E. rewrite E. apply Hset.
  - apply Nat.eqb_neq in E. now rewrite E.
Qed.

(** What [router.put('/order')] does when an order has the hash. *)
Lemma put_order_found env now req d o :
  validateResult (run (validator env PUT_webhook_order) req) = [] ->
  NoDup (map Order._id (orders d)) ->
  find (by_hash req) (orders d) = Some o ->
  let i := get "_idTrade" (req_body req) in
  let same := order_eqb (set_order_success i o) o in
  serve env now PUT_webhook_order req d
  = (Return tt,
     mkWorld
       (mkDb (set_in_orders (Order._id o) (set_order_success i) (orders d))
          (offers d) (next_id d))
       (mkRes 200 (Some (200, updated (mkUpdate 1 (if same then 0 else 1)))))
       [updateOne "orders" (Some (Order._id o))]
       (if same then [] else [mkEvent "success" "order" i])).
Proof.
  intros Hv Hnd Hf i same. unfold serve. cbn [handler validator] in *.
  unfold put_order. rewrite (nonempty_nil _ Hv), run_body. fold i.
  unfold bind at 1. unfold orders_findOne, read_db, bind, ret, incoming.
  cbn [db]. change (find _ (orders d)) with (find (by_hash req) (orders d)).
  rewrite Hf. apply find_some in Hf. destruct Hf as [Hin _].
  cbn. rewrite (update_first_order o _ _ Hnd Hin). fold same.
  destruct same; reflexivity.
Qed.

(** X11: the order webhook can be delivered twice.  When an order has the
    hash, the first delivery answers 200 and dispatches [success] exactly
    when it changed the order; the same delivery again finds the same
    order, answers 200 with nothing modified, dispatches nothing and leaves
    the store as the first delivery left it. *)
Theorem order_webhook_is_idempotent env now later req d o :
  validateResult (run (validator env PUT_webhook_order) req) = [] ->
  NoDup (map Order._id (orders d)) ->
  find (by_hash req) (orders d) = Some o ->
  let i := get "_idTrade" (req_body req) in
  let same := order_eqb (set_order_success i o) o in
  let first := serve env now PUT_webhook_order req d in
  let second := serve env later PUT_webhook_order req (store first) in
  response first = Some (200, updated (mkUpdate 1 (if same then 0 else 1)))
  /\ dispatched (snd first)
     = (if same then [] else [mkEvent "success" "order" i])
  /\ response second = Some (200, updated (mkUpdate 1 0))
  /\ dispatched (snd second) = []
  /\ store second = store first.
Proof.
  intros Hv Hnd Hf i same first second.
  pose proof (put_order_found env now req d o Hv Hnd Hf) as H1.
  cbv zeta in H1. fold i same first in H1.
  assert (Hs : store first
               = mkDb (set_in_orders (Order._id o) (set_order_success i) (orders d))
                   (offers d) (next_id d)).
  { unfold store. now rewrite H1. }
  split; [unfold response; now rewrite H1|].
  split; [now rewrite H1|].
  assert (Hnd' : NoDup (map Order._id (orders (store first)))).
  { rewrite Hs. cbn [orders]. rewrite set_in_orders_ids; [exact Hnd | reflexivity]. }
  assert (Hf' : find (by_hash req) (orders (store first))
                = Some (set_order_success i o)).
  { rewrite Hs. cbn [orders]. rewrite find_set_in_orders; [|reflexivity].
    rewrite Hf. cbn. now rewrite Nat.eqb_refl. }
  pose proof (put_order_found env later req (store first) _ Hv Hnd' Hf') as H2.
  cbv zeta in H2. fold i second in H2.
  assert (Hset : forall x, set_order_success i (set_order_success i x)
                           = set_order_success i x).
  { intros x. reflexivity. }
  rewrite Hset, order_eqb_refl in H2.
  unfold response, store at 1. rewrite H2. cbn [snd res sent dispatched db].
  repeat split.
  rewrite Hs. cbn [orders offers next_id Order._id set_order_success].
  now rewrite set_in_orders_twice.
Qed.

Lemma order_webhook_is_idempotent_witness :
  let req :=
    Sample.request ""
      [("_idTrade", JStr "trade-1"); ("_grinderyTransactionHash", JStr "myhash")]
      [] in
  let first := serve Sample.env 11 PUT_webhook_order req Sample.one_order in
  let second := serve Sample.env 12 PUT_webhook_order req (store first) in
  dispatched (snd first) = [mkEvent "success" "order" (JStr "trade-1")]
  /\ response second = Some (200, updated (mkUpdate 1 0))
  /\ dispatched (snd second) = [].
Proof.
  intros req first second.
  set (o := newDocument 10
              (Sample.request Sample.alice (Sample.order_body "myOrderId") []) 0).
  destruct (order_webhook_is_idempotent Sample.env 11 12 req Sample.one_order o)
    as (_ & H2 & H3 & H4 & _).
  - reflexivity.
  - change (NoDup [0%nat]). repeat constructor. intros [].
  - reflexivity.
  - fold first second in H2, H3, H4. split; [exact H2|]. split; assumption.
Defined.

Lemma offer_filter_refl f : offer_filter f f = true.
Proof.
  unfold offer_filter.
  now rewrite Nat.eqb_refl, !same_field_refl, String.eqb_refl.
Qed.

Lemma offer_filter_id q f : Offer._id f <> Offer._id q -> offer_filter q f = false.
Proof.
  intros H. unfold offer_filter. apply Nat.eqb_neq in H. now rewrite H.
Qed.

Lemma set_in_offers_absent i set l :
  ~ In i (map Offer._id l) -> set_in_offers i set l = l.
Proof.
  induction l as [|x l IH]; simpl; [reflexivity|]. intros H.
  destruct (Nat.eqb_spec (Offer._id x) i) as [E|E].
  - exfalso. apply H. now left.
  - f_equal. apply IH. intros Hin. apply H. now right.
Qed.

(** With distinct ids, an offer of the store used as the filter of
    [updateOne] picks that offer and no other. *)
Lemma update_first_offer f set l :
  NoDup (map Offer._id l) -> In f l ->
  update_first offer_eqb (offer_filter f) set l
  = (set_in_offers (Offer._id f) set l,
     mkUpdate 1 (if offer_eqb (set f) f then 0 else 1)).
Proof.
  induction l as [|x l IH]; simpl; [contradiction|].
  intros Hnd Hin. inversion Hnd as [|? ? Hx Hnd']; subst.
  destruct Hin as [->|Hin].
  - rewrite offer_filter_refl, Nat.eqb_refl.
    now rewrite set_in_offers_absent.
  - assert (Hne : Offer._id x <> Offer._id f).
    { intros E. apply Hx. rewrite E. now apply in_map. }
    rewrite (offer_filter_id _ _ Hne), (IH Hnd' Hin).
    apply Nat.eqb_neq in Hne. now rewrite Hne.
Qed.

(** Setting the offer of id [i] to itself changes nothing. *)
Lemma set_in_offers_same f set l :
  NoDup (map Offer._id l) -> In f l -> set f = f ->
  set_in_offers (Offer._id f) set l = l.
Proof.
  intros Hnd Hin Hset. unfold set_in_offers.
  rewrite <- (map_id l) at 2. apply map_ext_in. intros x Hx.
  destruct (Nat.eqb_spec (Offer._id x) (Offer._id f)) as [E|E]; [|reflexivity].
  assert (x = f) as ->; [|exact Hset].
  clear Hset. induction l as [|z l IH]; [contradiction|].
  simpl in Hnd. inversion Hnd as [|? ? Hz Hl]; subst.
  destruct Hx as [->|Hx], Hin as [->|Hin]; auto.
  - exfalso. apply Hz. rewrite E. now apply in_map.
  - exfalso. apply Hz. rewrite <- E. now apply in_map.
Qed.

(** What a one-field offer webhook does when an offer has the id. *)
Lemma offer_webhook_found env now e req d key f :
  offer_field_key e = Some key ->
  validateResult (run (validator env e) req) = [] ->
  NoDup (map Offer._id (offers d)) ->
  find (by_offerId req) (offers d) = Some f ->
  let v := coalesce (get key (req_body req)) (offer_field_get e f) in
  let same := offer_eqb (offer_field_set e v f) f in
  serve env now e req d
  = (Return tt,
     mkWorld
       (mkDb (orders d)
          (set_in_offers (Offer._id f) (offer_field_set e v) (offers d))
          (next_id d))
       (mkRes 200 (Some (200, updated (mkUpdate 1 (if same then 0 else 1)))))
       [updateOne "offers" (Some (Offer._id f))]
       (if same then []
        else [mkEvent (offer_method e) "offer" (get "_idOffer" (req_body req))])).
Proof.
  intros Hk Hv Hnd Hf. unfold serve.
  assert (Hb : by_offerId (run (validator env e) req) = by_offerId req).
  { unfold by_offerId. now rewrite run_body. }
  pose proof (find_some _ _ Hf) as [Hin _].
  unfold coalesce.
  destruct e; try discriminate Hk; injection Hk as <-;
    cbn [handler validator offer_field_get offer_field_set offer_method] in *;
    exec; rewrite (nonempty_nil _ Hv), run_body, Hb;
    unfold bind at 1; unfold offers_findOne, read_db, bind, ret, incoming;
    cbn [db]; rewrite Hf; unfold or_field;
    match goal with |- context [nullish ?x] => destruct (nullish x) end;
    cbn; rewrite (update_first_offer f _ _ Hnd Hin);
    match goal with |- context [offer_eqb ?a ?b] => destruct (offer_eqb a b) end;
    reflexivity.
Qed.

(** X12: each of the five one-field offer webhooks, when an offer has the
    id, writes that one field of that one offer: the value of the request,
    or the offer's own value when the request leaves it out.  It answers
    200 with one match, and dispatches its method for the offer exactly
    when the document changed.  When the value is left out and the offer
    has the field, nothing is modified and the store stays as it is. *)
Theorem offer_webhook_sets_one_field env now e req d key f :
  offer_field_key e = Some key ->
  validateResult (run (validator env e) req) = [] ->
  NoDup (map Offer._id (offers d)) ->
  find (by_offerId req) (offers d) = Some f ->
  let v := coalesce (get key (req_body req)) (offer_field_get e f) in
  let same := offer_eqb (offer_field_set e v f) f in
  let r := serve env now e req d in
  response r = Some (200, updated (mkUpdate 1 (if same then 0 else 1)))
  /\ offers (store r)
     = set_in_offers (Offer._id f) (offer_field_set e v) (offers d)
  /\ offer_field_get e (offer_field_set e v f) = bson v
  /\ dispatched (snd r)
     = (if same then []
        else [mkEvent (offer_method e) "offer" (get "_idOffer" (req_body req))])
  /\ (nullish (get key (req_body req)) = true ->
      offer_field_get e f <> JUndefined ->
      same = true /\ store r = d).
Proof.
  intros Hk Hv Hnd Hf v same r.
  pose proof (offer_webhook_found env now e req d key f Hk Hv Hnd Hf) as H.
  cbv zeta in H. fold v same r in H.
  pose proof (find_some _ _ Hf) as [Hin _].
  unfold response, store. rewrite H. cbn [snd res sent db dispatched offers].
  split; [reflexivity|]. split; [reflexivity|].
  split; [destruct e; try discriminate Hk; reflexivity|].
  split; [reflexivity|].
  intros Hn Hu.
  assert (Hset : offer_field_set e v f = f).
  { subst v. unfold coalesce. rewrite Hn.
    destruct e; try discriminate Hk; destruct f;
      cbn in Hu |- *;
      match type of Hu with ?x <> _ => destruct x end;
      try reflexivity; now elim Hu. }
  split.
  - subst same. rewrite Hset. apply offer_eqb_refl.
  - rewrite (set_in_offers_same f _ _ Hnd Hin Hset). now destruct d.
Qed.

Lemma offer_webhook_sets_one_field_witness :
  let req :=
    Sample.request "" [("_idOffer", JStr "offer-1"); ("_chainId", JStr "97")] [] in
  let r := serve Sample.env 12 PUT_webhook_offer_chain req one_offer in
  response r = Some (200, updated (mkUpdate 1 1))
  /\ offers (store r) = [set_chainId (JStr "97") an_offer]
  /\ dispatched (snd r) = [mkEvent "chain" "offer" (JStr "offer-1")].
Proof.
  intros req r.
  destruct (offer_webhook_sets_one_field Sample.env 12 PUT_webhook_offer_chain
              req one_offer "_chainId" an_offer)
    as (H1 & H2 & _ & H4 & _).
  - reflexivity.
  - reflexivity.
  - change (NoDup [0%nat]). repeat constructor. intros [].
  - reflexivity.
  - fold r in H1, H2, H4. split; [exact H1|]. split; [exact H2 | exact H4].
Defined.

(** X13: when no offer has the id and the request leaves the value out,
    the min-price, token, chain and activation webhooks answer "not found"
    (400, or 404 for the activation) and then fail with a [TypeError] on
    the field of the missing offer: no [updateOne] is issued, nothing is
    dispatched and the store stays as it is. *)
Theorem offer_webhook_without_value_throws env now e req d key :
  offer_field_key e = Some key ->
  returns_when_absent e = false ->
  validateResult (run (validator env e) req) = [] ->
  find (by_offerId req) (offers d) = None ->
  nullish (get key (req_body req)) = true ->
  let r := serve env now e req d in
  fst r = Throw TypeError
  /\ response r = Some (offer_absent_reply e)
  /\ writes (snd r) = []
  /\ dispatched (snd r) = []
  /\ store r = d.
Proof.
  intros Hk Hr Hv Hf Hn r. subst r. unfold serve.
  assert (Hb : by_offerId (run (validator env e) req) = by_offerId req).
  { unfold by_offerId. now rewrite run_body. }
  destruct e; try discriminate Hk; try discriminate Hr; injection Hk as <-;
    cbn [handler validator] in *; exec;
    rewrite (nonempty_nil _ Hv), run_body, Hb;
    unfold bind at 1; unfold offers_findOne, read_db, bind, ret, incoming;
    cbn [db]; rewrite Hf; unfold or_field; rewrite Hn; cbn;
    destruct d; auto.
Qed.

Lemma offer_webhook_without_value_throws_witness :
  let req := Sample.request "" [("_idOffer", JStr "no-such-offer")] [] in
  let r := serve Sample.env 12 PUT_webhook_offer_activation_deactivation req
             one_offer in
  fst r = Throw TypeError
  /\ response r = Some (404, message not_found)
  /\ writes (snd r) = [].
Proof.
  intros req r.
  destruct (offer_webhook_without_value_throws Sample.env 12
              PUT_webhook_offer_activation_deactivation req one_offer "_isActive")
    as (H1 & H2 & H3 & _);
    [reflexivity | reflexivity | reflexivity | reflexivity | reflexivity |].
  fold r in H1, H2, H3. split; [exact H1|]. split; [exact H2 | exact H3].
Defined.



Lemma existsb_map_filter {A B : Type} (p : B -> bool) (g : A -> B)
    (q : A -> bool) (l : list A) :
  existsb p (map g (filter q l)) = existsb (fun x => q x && p (g x)) l.
Proof.
  induction l as [|x l IH]; [reflexivity|].
  cbn [filter existsb]. destruct (q x); cbn [map existsb andb]; now rewrite IH.
Qed.

(** X15: [GET /orders/user], for a caller id that is a plain pattern and an
    [offset] and [limit] the model reads, answers 200 and changes nothing.
    The orders it counts are the orders of the store whose [userId] has the
    caller's id in it, sorted by date descending; the page it shows is a
    stretch of that list: [offset] orders are skipped (all of them when
    there are fewer), at most [limit] are shown, and with a limit of 0 the
    page runs to the end.  [totalCount] is the length of the whole list,
    whatever the page. *)
Theorem user_page_is_a_stretch_of_the_sorted_orders env now req d off lim :
  regex_literal (locals_userId req) = true ->
  to_number_or_0 (lookup "offset" (req_query req)) = Some off ->
  to_number_or_0 (lookup "limit" (req_query req)) = Some lim ->
  let r := serve env now GET_orders_user req d in
  exists before shown after,
    response r
    = Some (200,
            order_page (getOrdersWithOffers env d shown)
              (List.length (before ++ shown ++ after)))
    /\ date_descending (before ++ shown ++ after)
    /\ (forall o, In o (before ++ shown ++ after)
                  <-> In o (orders d)
                      /\ regex_i (locals_userId req) (Order.userId o) = true)
    /\ List.length before = Nat.min off (List.length (before ++ shown ++ after))
    /\ (lim <> 0%nat -> List.length shown <= lim)
    /\ (lim = 0%nat -> after = [])
    /\ store r = d.
Proof.
  intros Hu Ho Hl r.
  set (found := sort_date_desc
                  (filter (fun o => regex_i (locals_userId req) (Order.userId o))
                     (orders d))).
  destruct (page_stretch off lim found) as (after & Hs & Hlim & Hzero).
  exists (firstn off found), (page off lim found), after.
  rewrite <- Hs.
  assert (Hr : r = (Return tt,
                    mkWorld d
                      (mkRes 200
                         (Some (200,
                                order_page
                                  (getOrdersWithOffers env d (page off lim found))
                                  (List.length
                                     (filter (fun o => regex_i (locals_userId req)
                                                         (Order.userId o))
                                        (orders d))))))
                      [] [])).
  { subst r. unfold serve. cbn [handler validator].
    rewrite (get_user_run _ _ _ d off lim);
      rewrite ?run_userId, ?run_query; auto. }
  split; [|split; [|split; [|split; [|split; [|split]]]]].
  - rewrite Hr. unfold response. cbn [snd res sent].
    unfold found. now rewrite <- (Permutation_length (sort_date_desc_perm _)).
  - apply sort_date_desc_sorted.
  - intros o. unfold found. rewrite sort_date_desc_In, filter_In. reflexivity.
  - apply length_firstn.
  - exact Hlim.
  - exact Hzero.
  - now rewrite Hr.
Qed.

Lemma user_page_is_a_stretch_of_the_sorted_orders_witness :
  let req := Sample.request Sample.alice [] [("offset", "1"); ("limit", "5")] in
  let r := serve Sample.env 12 GET_orders_user req Sample.one_order in
  exists shown total,
    response r
    = Some (200, order_page (getOrdersWithOffers Sample.env Sample.one_order shown)
                   total)
    /\ List.length shown <= 5.
Proof.
  intros req r.
  destruct (user_page_is_a_stretch_of_the_sorted_orders Sample.env 12 req
              Sample.one_order 1 5)
    as (before & shown & after & H1 & _ & _ & _ & H5 & _);
    [reflexivity | reflexivity | reflexivity |].
  exists shown, (List.length (before ++ shown ++ after)).
  split; [exact H1 | apply H5; discriminate].
Defined.

(** X16: [GET /orders/liquidity-provider] is a join of the two collections.
    For a caller id that is a plain pattern, an [offset] and [limit] the
    model reads and an [isActiveOffers] that is missing, empty or one of
    [true], [false], [null], it answers 200 and changes nothing.  The
    orders it counts are exactly the orders whose [offerId] is the
    [offerId] of some offer whose [userId] has the caller's id in it and,
    when [isActiveOffers] is given, whose [isActive] is its truth value;
    whose order it is does not matter.  They are sorted by date descending
    and the page is cut out of them. *)
Theorem liquidity_provider_joins_orders_to_own_offers env now req d off lim w :
  regex_literal (locals_userId req) = true ->
  to_number_or_0 (lookup "offset" (req_query req)) = Some off ->
  to_number_or_0 (lookup "limit" (req_query req)) = Some lim ->
  wanted_isActive (lookup "isActiveOffers" (req_query req)) = Some w ->
  let r := serve env now GET_orders_liquidity_provider req d in
  let mine := fun f =>
    regex_i (locals_userId req) (Offer.userId f) && offer_wanted w f in
  exists found,
    response r
    = Some (200,
            order_page (getOrdersWithOffers env d (page off lim found))
              (List.length found))
    /\ date_descending found
    /\ (forall o, In o found
                  <-> In o (orders d)
                      /\ exists f, In f (offers d) /\ mine f = true
                                   /\ mongo_eq (Order.offerId o) (Offer.offerId f)
                                      = true)
    /\ store r = d.
Proof.
  intros Hu Ho Hl Hw r mine.
  set (listed := fun o =>
         existsb (fun f => mine f && mongo_eq (Order.offerId o) (Offer.offerId f))
           (offers d)).
  exists (sort_date_desc (filter listed (orders d))).
  assert (Hr : r = (Return tt,
                    mkWorld d
                      (mkRes 200
                         (Some (200,
                                order_page
                                  (getOrdersWithOffers env d
                                     (page off lim
                                        (sort_date_desc (filter listed (orders d)))))
                                  (List.length (filter listed (orders d))))))
                      [] [])).
  { subst r. unfold serve. cbn [handler validator].
    unfold get_liquidity_provider, user_regex, number_or_0,
      isActiveOffers_filter, JSON_parse_truthy.
    rewrite run_userId, run_query, Hu, Ho, Hl.
    unfold wanted_isActive in Hw.
    assert (Hq : forall active : Offer.t -> bool,
               (forall f, active f = offer_wanted w f) ->
               filter (fun o =>
                         mongo_in (Order.offerId o)
                           (map Offer.offerId
                              (filter (fun f => regex_i (locals_userId req)
                                                  (Offer.userId f) && active f)
                                 (offers d))))
                 (orders d)
               = filter listed (orders d)).
    { intros active Ha. apply filter_ext. intros o. unfold mongo_in, listed, mine.
      rewrite existsb_map_filter.
      induction (offers d) as [|f l IH]; [reflexivity|].
      cbn [existsb]. now rewrite IH, Ha. }
    destruct (lookup "isActiveOffers" (req_query req))
      as [[| | | |text| |]|]; try discriminate Hw.
    - destruct (String.eqb text "").
      + injection Hw as <-. cbn. now rewrite (Hq (fun _ => true)).
      + destruct (JSON_parse text) as [b| |]; try discriminate Hw.
        injection Hw as <-. cbn.
        now rewrite (Hq (fun f => mongo_eq (Offer.isActive f) (JBool b))).
    - injection Hw as <-. cbn. now rewrite (Hq (fun _ => true)). }
  split; [|split; [|split]].
  - rewrite Hr. unfold response. cbn [snd res sent].
    now rewrite <- (Permutation_length (sort_date_desc_perm _)).
  - apply sort_date_desc_sorted.
  - intros o. rewrite sort_date_desc_In, filter_In. unfold listed.
    rewrite existsb_exists. split.
    + intros (Hin & f & Hf & Hm). apply andb_true_iff in Hm.
      split; [exact Hin|]. exists f. tauto.
    + intros (Hin & f & Hf & Hm & He). split; [exact Hin|]. exists f.
      split; [exact Hf|]. now rewrite Hm, He.
  - now rewrite Hr.
Qed.

Lemma liquidity_provider_joins_orders_to_own_offers_witness :
  let req := Sample.request Sample.alice [] [("isActiveOffers", "true")] in
  let r := serve Sample.env 12 GET_orders_liquidity_provider req
             Sample.one_order in
  exists found,
    response r
    = Some (200,
            order_page
              (getOrdersWithOffers Sample.env Sample.one_order (page 0 0 found))
              (List.length found))
    /\ store r = Sample.one_order.
Proof.
  intros req r.
  destruct (liquidity_provider_joins_orders_to_own_offers Sample.env 12 req
              Sample.one_order 0 0 (Some true))
    as (found & H1 & _ & _ & H4);
    [reflexivity | reflexivity | reflexivity | reflexivity |].
  exists found. split; [exact H1 | exact H4].
Defined.

Lemma get_strings k q :
  get k (strings q)
  = match lookup k q with Some s => JStr s | None => JUndefined end.
Proof.
  induction q as [|[k' v] q IH]; [reflexivity|].
  cbn [strings map get lookup fst snd]. destruct (String.eqb k' k); [reflexivity|].
  exact IH.
Qed.

Lemma string_notEmpty_accepts req l path val :
  flat_map (run_validator req l path val) string_notEmpty = []
  <-> nonempty_string val.
Proof.
  split; [apply string_notEmpty_value|].
  intros (s & -> & Hs). unfold string_notEmpty. cbn.
  destruct (String.eqb_spec s ""); [contradiction | reflexivity].
Qed.

(** The errors of a validator on a request that came without any. *)
Lemma validateResult_fresh chains req :
  reads_sections chains -> contexts req = [] ->
  validateResult (run chains req) = flat_map (run_chain req) chains.
Proof.
  intros Hr Hc. now rewrite validateResult_contexts, (run_contexts _ _ Hr), Hc.
Qed.

Lemma one_chain_reads_sections l path :
  reads_sections [mkChain l path string_notEmpty].
Proof.
  apply no_custom_reads_sections. intros c item f [<-|[]] Hi.
  cbn in Hi. destruct Hi as [<-|[<-|[]]]; discriminate.
Qed.

Lemma extra_keys_only allowed fields :
  (forall k, In k (keys fields) -> In k allowed) -> extra_keys allowed fields = [].
Proof.
  intros H. unfold extra_keys.
  induction (keys fields) as [|k l IH]; [reflexivity|].
  cbn [filter].
  assert (E : existsb (String.eqb k) allowed = true).
  { apply existsb_exists. exists k. split; [apply H; now left|].
    apply String.eqb_refl. }
  rewrite E. cbn [negb]. apply IH. intros k' Hk'. apply H. now right.
Qed.

Lemma get_lookup k (q : JObject) :
  get k q = match lookup k q with Some v => v | None => JUndefined end.
Proof.
  induction q as [|[k' v] q IH]; [reflexivity|].
  cbn [get lookup]. destruct (String.eqb k' k); [reflexivity | exact IH].
Qed.

(** X17: what the one-field order validators let through, on a request
    that came without errors.  [getOrderByOrderIdValidator] accepts exactly
    the requests whose query parameter [orderId] is a string (given once)
    and is not empty; given twice it is an array, which is refused with
    "must be string value" even when its elements are not empty.
    [deleteOrderValidator] accepts exactly the requests whose path
    parameter [orderId] is not empty.  [setOrderCompleteValidator] accepts
    exactly those whose body is a non-empty string [orderId] and nothing
    else, with no query and no path parameter. *)
Theorem order_validators_accept req :
  contexts req = [] ->
  (validateResult (run getOrderByOrderIdValidator req) = []
   <-> nonempty_string (query_value req "orderId"))
  /\ (forall items,
        query_value req "orderId" = JArr items ->
        In (mkError (JArr items) must_be_string "orderId" in_query)
          (validateResult (run getOrderByOrderIdValidator req)))
  /\ (validateResult (run deleteOrderValidator req) = []
      <-> exists x, lookup "orderId" (req_params req) = Some x /\ x <> "")
  /\ (validateResult (run setOrderCompleteValidator req) = []
      <-> nonempty_string (get "orderId" (req_body req))
          /\ (forall k, In k (keys (req_body req)) -> k = "orderId")
          /\ req_query req = [] /\ req_params req = []).
Proof.
  intros Hc.
  assert (Hone : forall l path,
             validateResult (run [mkChain l path string_notEmpty] req) = []
             <-> nonempty_string (select req l path)).
  { intros l path.
    rewrite (validateResult_fresh _ _ (one_chain_reads_sections l path) Hc).
    cbn [flat_map]. rewrite app_nil_r, run_chain_flat_map.
    apply string_notEmpty_accepts. }
  assert (Hsel : select req in_query "orderId" = query_value req "orderId").
  { unfold select, query_value. cbn [String.eqb section Ascii.eqb].
    apply get_lookup. }
  split; [|split; [|split]].
  - change getOrderByOrderIdValidator
      with [mkChain in_query "orderId" string_notEmpty].
    now rewrite Hone, Hsel.
  - intros items Hq.
    change getOrderByOrderIdValidator
      with [mkChain in_query "orderId" string_notEmpty].
    rewrite (validateResult_fresh _ _ (one_chain_reads_sections _ _) Hc).
    cbn [flat_map]. rewrite app_nil_r, run_chain_flat_map.
    cbn [chain_location chain_path chain_stack]. rewrite Hsel, Hq.
    left. reflexivity.
  - change deleteOrderValidator
      with [mkChain in_params "orderId" string_notEmpty].
    rewrite Hone. unfold select. cbn [String.eqb section Ascii.eqb].
    rewrite get_strings. unfold nonempty_string.
    destruct (lookup "orderId" (req_params req)) as [s|].
    + split.
      * intros (x & E & Hx). injection E as ->. now exists x.
      * intros (x & E & Hx). injection E as ->. now exists x.
    + split; [intros (x & E & _); discriminate E
             | intros (x & E & _); discriminate E].
  - change setOrderCompleteValidator
      with ([mkChain in_body "orderId" string_notEmpty] ++ only_fields ["orderId"]).
    rewrite validateResult_contexts, run_app, run_only_fields.
    rewrite <- validateResult_contexts, !section_run. cbn [section].
    split.
    + intros H. apply app_eq_nil in H. destruct H as [H1 H].
      apply app_eq_nil in H. destruct H as [Hb H].
      apply app_eq_nil in H. destruct H as [Hq Hp].
      apply Hone in H1. unfold select in H1. cbn [String.eqb section Ascii.eqb] in H1.
      split; [exact H1|]. split; [|split].
      * intros k Hk.
        destruct (extra_keys ["orderId"] (req_body req)) eqn:E; [|discriminate Hb].
        destruct (extra_keys_nil _ _ k E Hk) as [<-|[]]. reflexivity.
      * apply extra_keys_none.
        destruct (extra_keys [] (req_query req)); [reflexivity|discriminate Hq].
      * apply extra_keys_strings_nil.
        destruct (extra_keys [] (strings (req_params req))); [reflexivity|discriminate Hp].
    + intros (H1 & Hk & Hq & Hp).
      assert (H1' : validateResult (run [mkChain in_body "orderId" string_notEmpty] req) = []).
      { apply Hone. exact H1. }
      rewrite H1', Hq, Hp, extra_keys_only; [reflexivity|].
      intros k Hin. left. symmetry. now apply Hk.
Qed.

Lemma order_validators_accept_witness :
  let twice :=
    mkRequest [] [("orderId", JArr [JStr "a"; JStr "b"])] [] Sample.alice [] in
  validateResult (run getOrderByOrderIdValidator twice)
  = [mkError (JArr [JStr "a"; JStr "b"]) must_be_string "orderId" in_query]
  /\ validateResult
       (run getOrderByOrderIdValidator (get_by_orderId Sample.alice "a")) = []
  /\ validateResult
       (run getOrderByOrderIdValidator (get_by_orderId Sample.alice "")) <> [].
Proof.
  intros twice. split; [reflexivity|]. split.
  - apply (order_validators_accept (get_by_orderId Sample.alice "a"));
      [reflexivity|].
    exists "a". split; [reflexivity | discriminate].
  - intros H.
    apply (order_validators_accept (get_by_orderId Sample.alice "")) in H;
      [|reflexivity].
    destruct H as (x & E & Hx). injection E as <-. now apply Hx.
Defined.

Lemma serve_offer_ids env now e req d :
  map Offer._id (offers (store (serve env now e req d))) = map Offer._id (offers d).
Proof.
  unfold serve, store.
  assert (Hk : keeps (fun w => map Offer._id (offers (db w)))
                 (handler env now e (run (validator env e) req))).
  { destruct e; cbn [handler]; exec; unfold isActiveOffers_filter; keeps_ids. }
  exact (Hk (incoming d)).
Qed.

(** X18: an invariant of the server.  Whatever requests are served, in
    whatever order, valid or not, a store whose orders have distinct ids
    below the next id to give stays so, and the offers of the store stay
    the same documents, by their ids. *)
Theorem every_session_keeps_the_store_well_formed env calls d :
  wf_db d ->
  wf_db (serve_all env calls d)
  /\ map Offer._id (offers (serve_all env calls d)) = map Offer._id (offers d).
Proof.
  unfold serve_all. revert d.
  induction calls as [|c calls IH]; intros d Hwf; [split; [exact Hwf | reflexivity]|].
  cbn [fold_left].
  set (d1 := store (serve env (call_now c) (call_endpoint c) (call_request c) d)).
  assert (Hwf1 : wf_db d1) by (apply serve_keeps_wf; exact Hwf).
  destruct (IH d1 Hwf1) as [H1 H2]. split; [exact H1|].
  rewrite H2. apply serve_offer_ids.
Qed.

Lemma every_session_keeps_the_store_well_formed_witness :
  let create :=
    mkCall 10 POST_orders
      (Sample.request Sample.alice (Sample.order_body "myOrderId") []) in
  let settle :=
    mkCall 11 PUT_webhook_order
      (Sample.request ""
         [("_idTrade", JStr "trade-1"); ("_grinderyTransactionHash", JStr "myhash")]
         []) in
  wf_db (serve_all Sample.env [create; create; settle] Sample.empty_db).
Proof.
  intros create settle.
  apply (every_session_keeps_the_store_well_formed Sample.env
           [create; create; settle] Sample.empty_db).
  exact empty_db_wf.
Defined.

(** X19: the two lookups are scoped to the caller, for a caller id without
    special characters of regular expressions.  Once its validation has
    passed, [GET /orders/orderId] answers 200 with whatever
    [getOneOrderWithOffer] makes of the order found, also when none is
    found: it has no 404.  [GET /orders/id] does the same when the
    driver's [ObjectId] takes the id; when [ObjectId] refuses it the route
    throws and answers nothing, and the validation does let such ids
    through: a text of 24 characters that starts with [0x] passes
    [isMongoId].  The order found is the first one of the store whose
    [userId] has the caller's id in it and that has the [orderId],
    respectively the [_id], asked for.  The store is not changed. *)
Theorem lookups_are_scoped_to_the_caller env now req d :
  regex_literal (locals_userId req) = true ->
  (validateResult (run getOrderByOrderIdValidator req) = [] ->
   let r := serve env now GET_orders_orderId req d in
   let found := find (orderId_filter req) (orders d) in
   response r = Some (200, document (getOneOrderWithOffer env (offers d) found))
   /\ store r = d
   /\ forall o, found = Some o ->
        In o (orders d)
        /\ regex_i (locals_userId req) (Order.userId o) = true
        /\ mongo_eq (Order.orderId o) (query_value req "orderId") = true)
  /\ (validateResult (run getOrderByIdValidator req) = [] ->
      let r := serve env now GET_orders_id req d in
      match ObjectId env (lookup "id" (req_query req)) with
      | Some i =>
          let found := find (id_filter req i) (orders d) in
          response r
          = Some (200, document (getOneOrderWithOffer env (offers d) found))
          /\ store r = d
          /\ forall o, found = Some o ->
               In o (orders d)
               /\ regex_i (locals_userId req) (Order.userId o) = true
               /\ Order._id o = i
      | None =>
          fst r = Throw BSONError /\ response r = None /\ store r = d
      end)
  /\ (forall user,
        validateResult
          (run getOrderByIdValidator
             (mkRequest [] [("id", JStr "0x1234567890abcdef123456")] [] user []))
        = []).
Proof.
  intros Hu. split; [|split].
  - intros Hv r found. subst r. unfold serve. cbn [handler validator].
    unfold get_orderId, user_regex, query_value.
    rewrite (nonempty_nil _ Hv), run_userId, run_query, Hu.
    split; [reflexivity|]. split; [reflexivity|].
    intros o Ho. apply find_some in Ho. destruct Ho as [Hin Hf].
    apply andb_true_iff in Hf. tauto.
  - intros Hv r. subst r. unfold serve. cbn [handler validator].
    unfold get_id, user_regex.
    rewrite (nonempty_nil _ Hv), run_userId, run_query, Hu.
    unfold bind at 1. unfold read_db at 1. unfold bind at 1. unfold ret at 1.
    destruct (ObjectId env (lookup "id" (req_query req))) as [i|].
    + split; [reflexivity|]. split; [reflexivity|].
      intros o Ho. apply find_some in Ho. destruct Ho as [Hin Hf].
      apply andb_true_iff in Hf. destruct Hf as [H1 H2].
      apply Nat.eqb_eq in H2. tauto.
    + repeat split.
  - intros user. reflexivity.
Qed.

Lemma lookups_are_scoped_to_the_caller_witness :
  let req := get_by_orderId "0xB0B" "myOrderId" in
  response (serve Sample.env 12 GET_orders_orderId req Sample.one_order)
  = Some (200,
          document (getOneOrderWithOffer Sample.env (offers Sample.one_order) None)).
Proof.
  intros req.
  destruct (lookups_are_scoped_to_the_caller Sample.env 12 req Sample.one_order)
    as [H _]; [reflexivity|].
  destruct (H eq_refl) as (H1 & _). exact H1.
Defined.
